(** * Coffee green-bean stock ledger (app.py)

    A shallow embedding of the storage-facing part of [app.py]: the two
    tables created by [init_db], the three form handlers that write to
    them (inbound receipt, roast consumption, stocktake correction), the
    pages around the handlers, and the two read-only views.

    Modelling choices, all visible in the definitions below:
    - a table is the list of its rows in insertion order; the AUTOINCREMENT
      counter of each table is kept next to it;
    - the columns of type REAL ([stock_weight], [amount_change]) and the
      values of [st.number_input] are exact rationals [Q] in the store
      model, which therefore says how the handlers combine numbers but
      not how binary64 rounds them; module [Binary64] repeats the
      handlers' arithmetic on one bean with the program's own floats, and
      statements that depend on rounding are made there;
    - CURRENT_TIMESTAMP is an explicit argument [now] of each handler;
    - [note] texts are an enumeration, the stocktake note carrying the two
      numbers that the source formats into it;
    - the cached connection [conn] is a pair of stores: what is committed
      and what the connection currently sees (its open transaction).  An
      exception leaves the connection as it is: the source has no handler
      and never calls rollback.  Every script run starts with [init_db()],
      whose [conn.commit()] commits whatever the connection holds. *)

From Stdlib Require Import List String ZArith QArith Bool Lia Lqa.
From Stdlib Require Import Sorted Permutation.
From Stdlib Require Import PrimFloat.
Import ListNotations.

Local Open Scope string_scope.
Local Open Scope Z_scope.

(** ** Data model *)

(** [action_type] column: the three literals written by the handlers. *)
Inductive ActionType : Type := INBOUND | ROAST | STOCKTAKE.

(** [note] column.  [NoteInbound] is '進豆入庫', [NoteNewBean] is '新豆建檔',
    [NoteRoast] is '烘豆消耗', and [NoteStocktake old new] is
    f'盤點修正 ({old}->{new})'. *)
Inductive Note : Type :=
| NoteInbound
| NoteNewBean
| NoteRoast
| NoteStocktake (old new : Q).

(** A row of table [beans]. *)
Module Bean.
Record t : Type := mk {
  id : Z;
  name : string;
  origin : string;
  process : string;
  stock_weight : Q;
  updated_at : Z
}.
End Bean.

(** A row of table [transactions]. *)
Module Txn.
Record t : Type := mk {
  id : Z;
  bean_id : Z;
  action_type : ActionType;
  amount_change : Q;
  note : Note;
  created_at : Z
}.
End Txn.

(** The database: both tables and their AUTOINCREMENT counters (the largest
    row id handed out so far, as sqlite_sequence records it). *)
Record Store : Type := mkStore {
  beans : list Bean.t;
  transactions : list Txn.t;
  beans_seq : Z;
  transactions_seq : Z
}.

(** State after [init_db] on a fresh file. *)
Definition init_db : Store :=
  {| beans := []; transactions := []; beans_seq := 0; transactions_seq := 0 |}.

(** ** SQL statements of the handlers, as functions on a store *)

(** SELECT id, stock_weight FROM beans WHERE name=?  followed by
    [cursor.fetchone()]. *)
Definition find_bean (nm : string) (s : Store) : option Bean.t :=
  find (fun b => String.eqb (Bean.name b) nm) (beans s).

Definition fetch_id_stock (nm : string) (s : Store) : option (Z * Q) :=
  match find_bean nm s with
  | Some b => Some (Bean.id b, Bean.stock_weight b)
  | None => None
  end.

Definition set_rows (f : Bean.t -> Bean.t) (bean_id : Z) (l : list Bean.t)
  : list Bean.t :=
  map (fun b => if Bean.id b =? bean_id then f b else b) l.

(** UPDATE beans SET stock_weight=?, origin=?, process=?,
    updated_at=CURRENT_TIMESTAMP WHERE id=? *)
Definition update_stock_meta (new_stock : Q) (origin process : string)
    (now bean_id : Z) (s : Store) : Store :=
  {| beans :=
       set_rows (fun b => Bean.mk (Bean.id b) (Bean.name b) origin process
                                   new_stock now) bean_id (beans s);
     transactions := transactions s;
     beans_seq := beans_seq s;
     transactions_seq := transactions_seq s |}.

(** UPDATE beans SET stock_weight=?, updated_at=CURRENT_TIMESTAMP WHERE id=? *)
Definition update_stock (new_stock : Q) (now bean_id : Z) (s : Store)
  : Store :=
  {| beans :=
       set_rows (fun b => Bean.mk (Bean.id b) (Bean.name b) (Bean.origin b)
                                   (Bean.process b) new_stock now)
                bean_id (beans s);
     transactions := transactions s;
     beans_seq := beans_seq s;
     transactions_seq := transactions_seq s |}.

(** INSERT INTO beans (name, origin, process, stock_weight) VALUES (?,?,?,?);
    [id] is the next AUTOINCREMENT value and [updated_at] takes its
    default. *)
Definition insert_bean (name origin process : string) (weight : Q) (now : Z)
    (s : Store) : Store :=
  let new_id := beans_seq s + 1 in
  {| beans := beans s ++ [Bean.mk new_id name origin process weight now];
     transactions := transactions s;
     beans_seq := new_id;
     transactions_seq := transactions_seq s |}.

(** [cursor.lastrowid] right after the INSERT INTO beans: the id it
    assigned. *)
Definition lastrowid (s : Store) : Z := beans_seq s.

(** INSERT INTO transactions (bean_id, action_type, amount_change, note)
    VALUES (?,?,?,?) *)
Definition insert_transaction (bean_id : Z) (action : ActionType)
    (amount : Q) (note : Note) (now : Z) (s : Store) : Store :=
  let new_id := transactions_seq s + 1 in
  {| beans := beans s;
     transactions :=
       transactions s ++ [Txn.mk new_id bean_id action amount note now];
     beans_seq := beans_seq s;
     transactions_seq := new_id |}.

(** ** The connection and the handler monad *)

Inductive Error : Type :=
| ValidationError     (* blank bean name: st.error, nothing executed *)
| TypeError           (* bean_id, current_stock = None: fetchone() found
                         no row and the unpacking raises *)
| ValueBelowMinError  (* st.number_input got a value below its min_value *)
| StorageError.       (* a statement or the commit raised *)

Inductive Outcome (A : Type) : Type :=
| Done (a : A)
| Raised (e : Error).
Arguments Done {A} a.
Arguments Raised {A} e.

(** The shared connection: the committed database, the view of the
    connection (committed data plus its uncommitted writes), and the
    injected storage fault, if any: [Some k] lets [k] more storage
    statements through and makes the next one raise. *)
Record Conn : Type := mkConn {
  committed : Store;
  working : Store;
  fault : option nat
}.

Definition M (A : Type) : Type := Conn -> Conn * Outcome A.

Definition ret {A} (a : A) : M A := fun c => (c, Done a).

Definition raise {A} (e : Error) : M A := fun c => (c, Raised e).

Definition bind {A B} (m : M A) (k : A -> M B) : M B :=
  fun c =>
    match m c with
    | (c', Done a) => k a c'
    | (c', Raised e) => (c', Raised e)
    end.

Notation "x <- m ;; k" := (bind m (fun x => k))
  (at level 61, m at next level, right associativity).
Notation "m ;;; k" := (bind m (fun _ => k))
  (at level 61, right associativity).

(** One storage statement passes the fault gate or raises there. *)
Definition gate (c : Conn) : option Conn :=
  match fault c with
  | None => Some c
  | Some O => None
  | Some (S k) => Some (mkConn (committed c) (working c) (Some k))
  end.

(** [cursor.execute] of a SELECT followed by [fetchone]: reads what the
    connection sees. *)
Definition select {A} (q : Store -> A) : M A :=
  fun c => (c, Done (q (working c))).

(** [cursor.execute] of an UPDATE or INSERT: changes only the connection's
    view. *)
Definition execute (w : Store -> Store) : M unit :=
  fun c =>
    match gate c with
    | None => (mkConn (committed c) (working c) None, Raised StorageError)
    | Some c1 =>
        (mkConn (committed c1) (w (working c1)) (fault c1), Done tt)
    end.

(** [conn.commit()]: the connection's view becomes the committed database. *)
Definition commit : M unit :=
  fun c =>
    match gate c with
    | None => (mkConn (committed c) (working c) None, Raised StorageError)
    | Some c1 => (mkConn (working c1) (working c1) (fault c1), Done tt)
    end.

(** ** The three handlers *)

Definition Qltb (x y : Q) : bool := negb (Qle_bool y x).

(** Inbound form, after [submitted]. Result: the stock shown in the success
    message. *)
Definition receive (now : Z) (name origin process : string) (weight : Q)
  : M Q :=
  if String.eqb name "" then raise ValidationError
  else
    existing <- select (fetch_id_stock name) ;;
    match existing with
    | Some (bean_id, current_stock) =>
        let new_stock := (current_stock + weight)%Q in
        execute (update_stock_meta new_stock origin process now bean_id) ;;;
        execute (insert_transaction bean_id INBOUND weight NoteInbound now) ;;;
        commit ;;;
        ret new_stock
    | None =>
        execute (insert_bean name origin process weight now) ;;;
        bean_id <- select lastrowid ;;
        execute (insert_transaction bean_id INBOUND weight NoteNewBean now) ;;;
        commit ;;;
        ret weight
    end.

(** Roast page, after the button. Result: the new stock and whether the
    negative-stock warning was shown.  The selectbox offers only names
    read from [beans]; for any other name [fetchone()] gives None and the
    unpacking on the next line raises before anything is written. *)
Definition consume (now : Z) (selected_bean : string) (roast_weight : Q)
  : M (Q * bool) :=
  row <- select (fetch_id_stock selected_bean) ;;
  match row with
  | None => raise TypeError
  | Some (bean_id, current_stock) =>
      let new_stock := (current_stock - roast_weight)%Q in
      let warned := Qltb new_stock 0 in
      execute (update_stock new_stock now bean_id) ;;;
      execute (insert_transaction bean_id ROAST (- roast_weight)%Q
                                  NoteRoast now) ;;;
      commit ;;;
      ret (new_stock, warned)
  end.

(** Stocktake page, after the button (lines 156-165). Result: [diff].
    The number input that the page creates before the button is part of
    [stocktake] below. *)
Definition correct (now : Z) (selected_bean : string) (actual_weight : Q)
  : M Q :=
  row <- select (fetch_id_stock selected_bean) ;;
  match row with
  | None => raise TypeError
  | Some (bean_id, current_stock) =>
      let diff := (actual_weight - current_stock)%Q in
      if Qeq_bool diff 0 then ret diff
      else
        execute (update_stock actual_weight now bean_id) ;;;
        execute (insert_transaction bean_id STOCKTAKE diff
                   (NoteStocktake current_stock actual_weight) now) ;;;
        commit ;;;
        ret diff
  end.

(** ** Calls on a healthy connection *)

(** A connection with nothing uncommitted and no fault. *)
Definition clean (s : Store) : Conn := mkConn s s None.

(** Run a handler on a clean connection over [s]; what is committed
    afterwards, and the handler's result. *)
Definition call {A} (m : M A) (s : Store) : Store * Outcome A :=
  let (c, r) := m (clean s) in (committed c, r).

Inductive Op : Type :=
| Receive (now : Z) (name origin process : string) (weight : Q)
| Consume (now : Z) (name : string) (weight : Q)
| Correct (now : Z) (name : string) (actual_weight : Q).

Definition step (s : Store) (o : Op) : Store :=
  match o with
  | Receive now n og pr w => fst (call (receive now n og pr w) s)
  | Consume now n w => fst (call (consume now n w) s)
  | Correct now n w => fst (call (correct now n w) s)
  end.

(** The store after a sequence of calls issued from a fresh database. *)
Definition run (ops : list Op) : Store := fold_left step ops init_db.

(** The widgets bound every weight below by [min_value=0.0]. *)
Definition op_weight (o : Op) : Q :=
  match o with
  | Receive _ _ _ _ w => w
  | Consume _ _ w => w
  | Correct _ _ w => w
  end.

Definition valid_op (o : Op) : Prop := (0 <= op_weight o)%Q.

(** Sum of [amount_change] over the transactions that reference a bean. *)
Definition sum_amounts (l : list Txn.t) : Q :=
  fold_right (fun t acc => (Txn.amount_change t + acc)%Q) 0%Q l.

Definition ledger_sum (bean_id : Z) (l : list Txn.t) : Q :=
  sum_amounts (filter (fun t => Txn.bean_id t =? bean_id) l).

(** ** Vocabulary of the statements *)

(** The invariant of the ledger: ids come from the AUTOINCREMENT counter
    and are pairwise distinct, transactions reference only ids handed out
    so far, every stock is the sum of its transactions, and every bean
    has its creation on record. *)
Record ledger_ok (s : Store) : Prop := {
  ids_bounded : Forall (fun b => Bean.id b <= beans_seq s) (beans s);
  refs_bounded :
    Forall (fun t => Txn.bean_id t <= beans_seq s) (transactions s);
  ids_unique : NoDup (map Bean.id (beans s));
  balanced :
    forall b, In b (beans s) ->
      (Bean.stock_weight b == ledger_sum (Bean.id b) (transactions s))%Q;
  creation_logged :
    forall b, In b (beans s) ->
      exists t, In t (transactions s) /\ Txn.bean_id t = Bean.id b /\
                Txn.action_type t = INBOUND /\ Txn.note t = NoteNewBean
}.

(** INBOUND amounts are not negative, ROAST amounts not positive. *)
Definition sign_ok (t : Txn.t) : Prop :=
  match Txn.action_type t with
  | INBOUND => (0 <= Txn.amount_change t)%Q
  | ROAST => (Txn.amount_change t <= 0)%Q
  | STOCKTAKE => True
  end.

(** A short session used to instantiate the statements. *)
Definition sample_ops : list Op :=
  [ Receive 1 "X" "" "" 5%Q;
    Receive 2 "X" "Ethiopia" "Washed" 5%Q;
    Consume 3 "X" 12%Q;
    Correct 4 "X" (1 # 2)%Q;
    Receive 5 "Y" "" "" 0%Q ].

(** The row of bean X at the end of [sample_ops]. *)
Definition sample_bean : Bean.t :=
  Bean.mk 1 "X" "Ethiopia" "Washed" (1 # 2)%Q 4.

(** The reading of C9 as it is written: strictly positive INBOUND amounts
    and strictly negative ROAST amounts. *)
Definition strictly_signed (t : Txn.t) : Prop :=
  match Txn.action_type t with
  | INBOUND => (0 < Txn.amount_change t)%Q
  | ROAST => (Txn.amount_change t < 0)%Q
  | STOCKTAKE => True
  end.

(** The bean name a call targets. *)
Definition op_name (o : Op) : string :=
  match o with
  | Receive _ nm _ _ _ => nm
  | Consume _ nm _ => nm
  | Correct _ nm _ => nm
  end.

Definition is_receive (o : Op) : bool :=
  match o with
  | Receive _ _ _ _ _ => true
  | _ => false
  end.

(** What a call leaves alone: the transactions already recorded, and every
    bean row that does not carry the target name; of the target row it
    keeps [id] and [name], and unless the call is a receipt also [origin]
    and [process]. *)
Record framed (nm : string) (keeps_meta : bool) (s s' : Store) : Prop := {
  old_transactions :
    exists l, transactions s' = (transactions s ++ l)%list;
  other_rows_stay :
    forall k x, nth_error (beans s) k = Some x -> Bean.name x <> nm ->
                nth_error (beans s') k = Some x;
  no_other_rows_appear :
    forall x, In x (beans s') -> Bean.name x <> nm -> In x (beans s);
  target_identity :
    forall b, find_bean nm s = Some b ->
      exists b', find_bean nm s' = Some b' /\
                 Bean.id b' = Bean.id b /\ Bean.name b' = Bean.name b /\
                 (keeps_meta = true ->
                  Bean.origin b' = Bean.origin b /\
                  Bean.process b' = Bean.process b)
}.

(** One bean X with stock 3. *)
Definition store_after_X3 : Store := run [Receive 1 "X" "" "" 3%Q].

(** The storage fault of C2 on a script run: the commit of [init_db()]
    and the UPDATE of the bean pass, the INSERT of the transaction
    raises. *)
Definition insert_fails : Conn :=
  mkConn store_after_X3 store_after_X3 (Some 2%nat).

(** One bean X with stock -2: 3 received, 5 roasted. *)
Definition store_after_underflow : Store :=
  run [Receive 1 "X" "" "" 3%Q; Consume 2 "X" 5%Q].

(** ** Read-only pages *)

(** ORDER BY: rows are placed one by one in front of the first row they
    do not come after.  SQL leaves the order among rows with equal keys
    open; this is one such order. *)
Fixpoint place {A} (le : A -> A -> bool) (x : A) (l : list A) : list A :=
  match l with
  | [] => [x]
  | y :: l' => if le x y then x :: l else y :: place le x l'
  end.

Definition order_by {A} (le : A -> A -> bool) (l : list A) : list A :=
  fold_right (place le) [] l.

(** Dashboard query: SELECT name, origin, process, stock_weight,
    updated_at FROM beans. *)
Definition dashboard_rows (s : Store)
  : list (string * string * string * Q * Z) :=
  map (fun b => (Bean.name b, Bean.origin b, Bean.process b,
                 Bean.stock_weight b, Bean.updated_at b)) (beans s).

(** What the dashboard shows: the notice that there is no stock data, or
    the two metrics (total weight, number of kinds) above the table. *)
Inductive Dashboard : Type :=
| NoStockInfo
| Metrics (total_stock : Q) (kinds : nat)
          (df : list (string * string * string * Q * Z)).

(** df['庫存(kg)'].sum() *)
Definition column_sum (df : list (string * string * string * Q * Z)) : Q :=
  fold_left (fun acc r => (acc + snd (fst r))%Q) df 0%Q.

Definition dashboard (s : Store) : Dashboard :=
  let df := dashboard_rows s in
  match df with
  | [] => NoStockInfo
  | _ :: _ => Metrics (column_sum df) (List.length df) df
  end.

(** SELECT name FROM beans ORDER BY name: the options of the selectbox on
    the roast page and on the stocktake page. *)
Definition bean_list (s : Store) : list string :=
  order_by String.leb (map Bean.name (beans s)).

(** A row of the change log: time, bean name, action, amount, note. *)
Definition LogRow : Type := (Z * string * ActionType * Q * Note)%type.

Definition log_row (t : Txn.t) (b : Bean.t) : LogRow :=
  (Txn.created_at t, Bean.name b, Txn.action_type t, Txn.amount_change t,
   Txn.note t).

Definition log_time (r : LogRow) : Z := fst (fst (fst (fst r))).

(** FROM transactions t JOIN beans b ON t.bean_id = b.id *)
Definition log_join (s : Store) : list LogRow :=
  flat_map (fun t =>
              map (log_row t)
                  (filter (fun b => Txn.bean_id t =? Bean.id b) (beans s)))
           (transactions s).

(** ... ORDER BY t.created_at DESC LIMIT 100 *)
Definition transaction_log (s : Store) : list LogRow :=
  firstn 100 (order_by (fun r1 r2 => log_time r2 <=? log_time r1)
                       (log_join s)).

(** ** Script runs and the pages around the handlers *)

(** [init_db()] at the top of every script run, on a database that
    already has its tables: the two CREATE TABLE IF NOT EXISTS change
    nothing, and [conn.commit()] commits what the connection holds. *)
Definition init_db_again : M unit := commit.

(** One script run: [init_db()], then the selected page. *)
Definition script {A} (page : M A) : M A := init_db_again ;;; page.

(** What a page with a bean list ends with: the case that there is no
    bean (a warning on the roast page, nothing at all on the stocktake
    page), or the result of its handler. *)
Inductive Shown (A : Type) : Type :=
| Notice
| Result (a : A).
Arguments Notice {A}.
Arguments Result {A} a.

(** Stocktake page for a selected bean, button pressed: the lookup, then
    st.number_input(min_value=0.0, value=current_stock), which raises
    when the stock on record is below 0, then the handler. *)
Definition stocktake (now : Z) (selected_bean : string) (actual_weight : Q)
  : M Q :=
  row <- select (fetch_id_stock selected_bean) ;;
  match row with
  | None => raise TypeError
  | Some (_, current_stock) =>
      if Qltb current_stock 0 then raise ValueBelowMinError
      else correct now selected_bean actual_weight
  end.


(** Stocktake page, button pressed. *)
Definition stocktake_page (now : Z) (choice : nat) (actual_weight : Q)
  : M (Shown Q) :=
  options <- select bean_list ;;
  match options with
  | [] => ret Notice
  | first :: _ =>
      d <- stocktake now (nth choice options first) actual_weight ;;
      ret (Result d)
  end.

(** ** The handlers' arithmetic in binary64 *)

(** The stock of one bean and the [amount_change] column of its
    transactions, with the numbers the program computes: Python floats
    stored in REAL columns.  Each function is the arithmetic of one
    handler branch (lines 99-103, 92-96, 126-134, 157-163). *)
Module Binary64.

Record Ledger : Type := mk {
  stock_weight : PrimFloat.float;
  amount_changes : list PrimFloat.float
}.

Definition receive_new (weight : PrimFloat.float) : Ledger :=
  mk weight [weight].

Definition receive (weight : PrimFloat.float) (l : Ledger) : Ledger :=
  mk (PrimFloat.add (stock_weight l) weight) (amount_changes l ++ [weight]).

Definition consume (roast_weight : PrimFloat.float) (l : Ledger) : Ledger :=
  mk (PrimFloat.sub (stock_weight l) roast_weight)
     (amount_changes l ++ [PrimFloat.opp roast_weight]).

Definition correct (actual_weight : PrimFloat.float) (l : Ledger) : Ledger :=
  let diff := PrimFloat.sub actual_weight (stock_weight l) in
  if PrimFloat.eqb diff PrimFloat.zero then l
  else mk actual_weight (amount_changes l ++ [diff]).

(** The sum of [amount_change], added up row by row. *)
Definition total (l : Ledger) : PrimFloat.float :=
  fold_left PrimFloat.add (amount_changes l) PrimFloat.zero.

End Binary64.

(** ** Vocabulary of the further statements *)

(** The shapes a call's effect on the store can take: nothing; a write to
    the rows of one existing bean's id together with one transaction
    against that id; a new bean under a fresh non-blank name together
    with its INBOUND transaction. *)
Inductive effect (s : Store) : Store -> Prop :=
| effect_none : effect s s
| effect_post b f a amt n now s1 :
    In b (beans s) ->
    beans s1 = set_rows f (Bean.id b) (beans s) ->
    transactions s1 = transactions s ->
    beans_seq s1 = beans_seq s ->
    transactions_seq s1 = transactions_seq s ->
    (forall x, Bean.id (f x) = Bean.id x) ->
    (forall x, Bean.name (f x) = Bean.name x) ->
    n <> NoteNewBean ->
    effect s (insert_transaction (Bean.id b) a amt n now s1)
| effect_create nm og pr w now :
    nm <> "" -> find_bean nm s = None ->
    effect s (insert_transaction (beans_seq s + 1) INBOUND w NoteNewBean now
                (insert_bean nm og pr w now s)).

(** What the schema asks of the tables, and how AUTOINCREMENT numbers the
    rows. *)
Record schema_ok (s : Store) : Prop := {
  names_unique : NoDup (map Bean.name (beans s));
  names_not_blank : Forall (fun b => Bean.name b <> "") (beans s);
  bean_ids_consecutive :
    map Bean.id (beans s)
    = map Z.of_nat (seq 1 (List.length (beans s)));
  txn_ids_consecutive :
    map Txn.id (transactions s)
    = map Z.of_nat (seq 1 (List.length (transactions s)));
  beans_seq_is_count : beans_seq s = Z.of_nat (List.length (beans s));
  transactions_seq_is_count :
    transactions_seq s = Z.of_nat (List.length (transactions s));
  references_exist :
    Forall (fun t => In (Txn.bean_id t) (map Bean.id (beans s)))
           (transactions s)
}.

(** A creation record: the transaction written with a new bean. *)
Definition is_creation (t : Txn.t) : bool :=
  match Txn.note t with
  | NoteNewBean => true
  | _ => false
  end.

(** The creation records of one bean. *)
Definition creation_records (bean_id : Z) (l : list Txn.t) : list Txn.t :=
  filter (fun t => (Txn.bean_id t =? bean_id) &&
                   match Txn.note t with NoteNewBean => true | _ => false end)
         l.

(** [s'] continues [s]: the transactions of [s] are the first rows of the
    transaction table of [s'], and every bean row of [s] is still at its
    place in [s'] under the same id and name. *)
Definition continues (s s' : Store) : Prop :=
  (exists l, transactions s' = (transactions s ++ l)%list) /\
  (forall k b, nth_error (beans s) k = Some b ->
     exists b', nth_error (beans s') k = Some b' /\
                Bean.id b' = Bean.id b /\ Bean.name b' = Bean.name b).

(** A bean with negative stock has a ROAST transaction on record. *)
Definition negative_only_after_roast (s : Store) : Prop :=
  forall b, In b (beans s) -> (Bean.stock_weight b < 0)%Q ->
    exists t, In t (transactions s) /\ Txn.bean_id t = Bean.id b /\
              Txn.action_type t = ROAST.

(** A receipt that passes the blank-name check. *)
Definition named_receipt (o : Op) : bool :=
  match o with
  | Receive _ nm _ _ _ => negb (String.eqb nm "")
  | _ => false
  end.

Definition is_inbound (t : Txn.t) : bool :=
  match Txn.action_type t with
  | INBOUND => true
  | _ => false
  end.

(** The time at which a call is made. *)
Definition op_time (o : Op) : Z :=
  match o with
  | Receive now _ _ _ _ => now
  | Consume now _ _ => now
  | Correct now _ _ => now
  end.

(** * Properties *)

(** ** What each call does, case by case *)

Lemma fetch_found nm s b :
  find_bean nm s = Some b ->
  fetch_id_stock nm s = Some (Bean.id b, Bean.stock_weight b).
Proof. unfold fetch_id_stock. now intros ->. Qed.

Lemma fetch_missing nm s :
  find_bean nm s = None -> fetch_id_stock nm s = None.
Proof. unfold fetch_id_stock. now intros ->. Qed.

Lemma find_bean_name nm s b : find_bean nm s = Some b -> Bean.name b = nm.
Proof.
  unfold find_bean. intros H. apply find_some in H.
  now apply String.eqb_eq.
Qed.

Lemma find_bean_In nm s b : find_bean nm s = Some b -> In b (beans s).
Proof. unfold find_bean. intros H. now apply find_some in H. Qed.

Lemma receive_blank now og pr w s :
  call (receive now "" og pr w) s = (s, Raised ValidationError).
Proof. reflexivity. Qed.

Lemma receive_new now nm og pr w s :
  nm <> "" -> find_bean nm s = None ->
  call (receive now nm og pr w) s =
  (insert_transaction (beans_seq s + 1) INBOUND w NoteNewBean now
     (insert_bean nm og pr w now s), Done w).
Proof.
  intros Hnm Hf. unfold call, receive.
  apply String.eqb_neq in Hnm. rewrite Hnm.
  unfold bind, select, clean. cbn.
  rewrite (fetch_missing _ _ Hf). reflexivity.
Qed.

Lemma receive_existing now nm og pr w s b :
  nm <> "" -> find_bean nm s = Some b ->
  call (receive now nm og pr w) s =
  (insert_transaction (Bean.id b) INBOUND w NoteInbound now
     (update_stock_meta (Bean.stock_weight b + w)%Q og pr now (Bean.id b) s),
   Done (Bean.stock_weight b + w)%Q).
Proof.
  intros Hnm Hf. unfold call, receive.
  apply String.eqb_neq in Hnm. rewrite Hnm.
  unfold bind, select, clean. cbn.
  rewrite (fetch_found _ _ _ Hf). reflexivity.
Qed.

Lemma consume_missing now nm w s :
  find_bean nm s = None ->
  call (consume now nm w) s = (s, Raised TypeError).
Proof.
  intros Hf. unfold call, consume, bind, select, clean. cbn.
  rewrite (fetch_missing _ _ Hf). reflexivity.
Qed.

Lemma consume_found now nm w s b :
  find_bean nm s = Some b ->
  call (consume now nm w) s =
  (insert_transaction (Bean.id b) ROAST (- w)%Q NoteRoast now
     (update_stock (Bean.stock_weight b - w)%Q now (Bean.id b) s),
   Done ((Bean.stock_weight b - w)%Q, Qltb (Bean.stock_weight b - w) 0)).
Proof.
  intros Hf. unfold call, consume, bind, select, clean. cbn.
  rewrite (fetch_found _ _ _ Hf). reflexivity.
Qed.

Lemma correct_missing now nm w s :
  find_bean nm s = None ->
  call (correct now nm w) s = (s, Raised TypeError).
Proof.
  intros Hf. unfold call, correct, bind, select, clean. cbn.
  rewrite (fetch_missing _ _ Hf). reflexivity.
Qed.

Lemma correct_same now nm w s b :
  find_bean nm s = Some b -> (w == Bean.stock_weight b)%Q ->
  call (correct now nm w) s = (s, Done (w - Bean.stock_weight b)%Q).
Proof.
  intros Hf Hw. unfold call, correct, bind, select, clean. cbn.
  rewrite (fetch_found _ _ _ Hf).
  assert (E : Qeq_bool (w - Bean.stock_weight b) 0 = true)
    by (apply Qeq_bool_iff; lra).
  rewrite E. reflexivity.
Qed.

Lemma correct_changed now nm w s b :
  find_bean nm s = Some b -> ~ (w == Bean.stock_weight b)%Q ->
  call (correct now nm w) s =
  (insert_transaction (Bean.id b) STOCKTAKE (w - Bean.stock_weight b)%Q
     (NoteStocktake (Bean.stock_weight b) w) now
     (update_stock w now (Bean.id b) s),
   Done (w - Bean.stock_weight b)%Q).
Proof.
  intros Hf Hw. unfold call, correct, bind, select, clean. cbn.
  rewrite (fetch_found _ _ _ Hf).
  destruct (Qeq_bool (w - Bean.stock_weight b) 0) eqn:E.
  - apply Qeq_bool_iff in E. exfalso. apply Hw. lra.
  - reflexivity.
Qed.

(** ** The ledger sum *)

Lemma sum_amounts_app l1 l2 :
  (sum_amounts (l1 ++ l2) == sum_amounts l1 + sum_amounts l2)%Q.
Proof.
  unfold sum_amounts.
  induction l1 as [|t l1 IH]; cbn [fold_right app].
  - lra.
  - rewrite IH. lra.
Qed.

Lemma ledger_sum_snoc_same i l t :
  Txn.bean_id t = i ->
  (ledger_sum i (l ++ [t]) == ledger_sum i l + Txn.amount_change t)%Q.
Proof.
  intros E. unfold ledger_sum. rewrite filter_app, sum_amounts_app.
  cbn [filter]. apply Z.eqb_eq in E. rewrite E.
  cbn [sum_amounts fold_right]. lra.
Qed.

Lemma ledger_sum_snoc_other i l t :
  Txn.bean_id t <> i -> ledger_sum i (l ++ [t]) = ledger_sum i l.
Proof.
  intros E. unfold ledger_sum. rewrite filter_app. cbn [filter].
  apply Z.eqb_neq in E. rewrite E. now rewrite app_nil_r.
Qed.

Lemma ledger_sum_fresh i n l :
  Forall (fun t => Txn.bean_id t <= n) l -> n < i -> ledger_sum i l = 0%Q.
Proof.
  intros H Hi. unfold ledger_sum.
  induction H as [|t l Ht _ IH]; cbn; [reflexivity|].
  destruct (Z.eqb_spec (Txn.bean_id t) i); [lia | exact IH].
Qed.

(** ** The invariant kept by every call *)

Lemma ledger_ok_init : ledger_ok init_db.
Proof.
  split; cbn; try constructor; intros b [].
Qed.

Lemma set_rows_ids f i l :
  (forall x, Bean.id (f x) = Bean.id x) ->
  map Bean.id (set_rows f i l) = map Bean.id l.
Proof.
  intros Hf. unfold set_rows. rewrite map_map. apply map_ext.
  intros x. destruct (Bean.id x =? i); [apply Hf | reflexivity].
Qed.

Lemma In_set_rows f i l y :
  In y (set_rows f i l) ->
  exists x, In x l /\
    ((Bean.id x = i /\ y = f x) \/ (Bean.id x <> i /\ y = x)).
Proof.
  unfold set_rows. rewrite in_map_iff. intros (x & E & Hx).
  exists x. split; [exact Hx|].
  destruct (Z.eqb_spec (Bean.id x) i); [left | right]; auto.
Qed.

(** Posting a transaction against bean [i] together with writing the
    matching stock into the rows of id [i]. *)
Lemma ledger_ok_post s s1 b f a amt n now :
  ledger_ok s -> In b (beans s) ->
  beans s1 = set_rows f (Bean.id b) (beans s) ->
  transactions s1 = transactions s ->
  beans_seq s1 = beans_seq s ->
  (forall x, Bean.id (f x) = Bean.id x) ->
  (forall x, Bean.stock_weight (f x) == Bean.stock_weight b + amt)%Q ->
  ledger_ok (insert_transaction (Bean.id b) a amt n now s1).
Proof.
  intros [Hb Hr Hu Hbal Hcr] Hin Eb Et Es Hid Hst.
  assert (Hidb : Bean.id b <= beans_seq s)
    by (rewrite Forall_forall in Hb; auto).
  split; cbn [beans transactions beans_seq insert_transaction];
    rewrite ?Eb, ?Et, ?Es.
  - rewrite Forall_forall. intros y Hy.
    apply In_set_rows in Hy. destruct Hy as (x & Hx & [[E ->]|[E ->]]);
      rewrite ?Hid; rewrite Forall_forall in Hb; auto.
  - apply Forall_app. split; [exact Hr|]. constructor; [exact Hidb|constructor].
  - rewrite set_rows_ids by exact Hid. exact Hu.
  - intros y Hy. apply In_set_rows in Hy.
    destruct Hy as (x & Hx & [[E ->]|[E ->]]).
    + rewrite Hid, E.
      pose proof (Hst x) as H1. pose proof (Hbal b Hin) as H2.
      pose proof (ledger_sum_snoc_same (Bean.id b) (transactions s)
                    (Txn.mk (transactions_seq s1 + 1) (Bean.id b) a amt n now)
                    eq_refl) as H3.
      cbn [Txn.amount_change] in H3. lra.
    + rewrite ledger_sum_snoc_other by (cbn; congruence).
      apply Hbal, Hx.
  - intros y Hy. apply In_set_rows in Hy.
    assert (Hy' : exists x, In x (beans s) /\ Bean.id y = Bean.id x).
    { destruct Hy as (x & Hx & [[E ->]|[E ->]]); exists x; auto. }
    destruct Hy' as (x & Hx & ->).
    destruct (Hcr x Hx) as (t & Ht & Hrest).
    exists t. split; [apply in_or_app; now left | exact Hrest].
Qed.

(** Creating a bean together with its first INBOUND transaction. *)
Lemma ledger_ok_create s nm og pr w now :
  ledger_ok s ->
  ledger_ok (insert_transaction (beans_seq s + 1) INBOUND w NoteNewBean now
               (insert_bean nm og pr w now s)).
Proof.
  intros [Hb Hr Hu Hbal Hcr].
  split; cbn [beans transactions beans_seq transactions_seq
                insert_transaction insert_bean].
  - apply Forall_app. split.
    + eapply Forall_impl; [|exact Hb]. cbn. intros; lia.
    + constructor; [cbn; lia | constructor].
  - apply Forall_app. split.
    + eapply Forall_impl; [|exact Hr]. cbn. intros; lia.
    + constructor; [cbn; lia | constructor].
  - rewrite map_app. cbn.
    apply NoDup_app; [exact Hu | repeat constructor; intros [] |].
    intros i Hi [<-|[]]. apply in_map_iff in Hi. destruct Hi as (x & E & Hx).
    rewrite Forall_forall in Hb. specialize (Hb x Hx). cbn in Hb. lia.
  - intros y Hy. apply in_app_or in Hy. destruct Hy as [Hy|[<-|[]]].
    + rewrite ledger_sum_snoc_other.
      * apply Hbal, Hy.
      * cbn. rewrite Forall_forall in Hb. specialize (Hb y Hy). cbn in Hb. lia.
    + cbn [Bean.id Bean.stock_weight].
      pose proof (ledger_sum_snoc_same (beans_seq s + 1) (transactions s)
                    (Txn.mk (transactions_seq s + 1) (beans_seq s + 1)
                            INBOUND w NoteNewBean now) eq_refl) as H3.
      rewrite (ledger_sum_fresh (beans_seq s + 1) (beans_seq s) _ Hr) in H3
        by lia.
      cbn [Txn.amount_change] in H3. lra.
  - intros y Hy. apply in_app_or in Hy. destruct Hy as [Hy|[<-|[]]].
    + destruct (Hcr y Hy) as (t & Ht & Hrest).
      exists t. split; [apply in_or_app; now left | exact Hrest].
    + eexists. split; [apply in_or_app; right; left; reflexivity|].
      cbn. auto.
Qed.

Ltac by_cases_of_op s o :=
  let now := fresh "now" in
  let nm := fresh "nm" in
  let og := fresh "og" in
  let pr := fresh "pr" in
  let w := fresh "w" in
  let b := fresh "b" in
  let Hf := fresh "Hf" in
  let Hnm := fresh "Hnm" in
  let Hw := fresh "Hw" in
  destruct o as [now nm og pr w | now nm w | now nm w]; cbn [step];
  [ destruct (string_dec nm "") as [->|Hnm];
    [ rewrite receive_blank
    | destruct (find_bean nm s) as [b|] eqn:Hf;
      [ rewrite (receive_existing now nm og pr w s b Hnm Hf)
      | rewrite (receive_new now nm og pr w s Hnm Hf) ] ]
  | destruct (find_bean nm s) as [b|] eqn:Hf;
    [ rewrite (consume_found now nm w s b Hf)
    | rewrite (consume_missing now nm w s Hf) ]
  | destruct (find_bean nm s) as [b|] eqn:Hf;
    [ destruct (Qeq_dec w (Bean.stock_weight b)) as [Hw|Hw];
      [ rewrite (correct_same now nm w s b Hf Hw)
      | rewrite (correct_changed now nm w s b Hf Hw) ]
    | rewrite (correct_missing now nm w s Hf) ] ];
  cbn [fst].

Lemma step_ledger_ok s o : ledger_ok s -> ledger_ok (step s o).
Proof.
  intros H. by_cases_of_op s o; try exact H;
    try (now apply ledger_ok_create);
    (eapply ledger_ok_post with (s := s);
     [ exact H | eapply find_bean_In; eassumption | reflexivity..
     | intros x; cbn [Bean.stock_weight]; lra ]).
Qed.

Lemma fold_step_ledger_ok ops s :
  ledger_ok s -> ledger_ok (fold_left step ops s).
Proof.
  revert s. induction ops as [|o ops IH]; intros s H; cbn.
  - exact H.
  - apply IH, step_ledger_ok, H.
Qed.

Lemma run_ledger_ok ops : ledger_ok (run ops).
Proof. apply fold_step_ledger_ok, ledger_ok_init. Qed.

(** ** Signs of the recorded amounts *)

Lemma step_sign_ok s o :
  valid_op o -> Forall sign_ok (transactions s) ->
  Forall sign_ok (transactions (step s o)).
Proof.
  unfold valid_op. intros Hv H.
  by_cases_of_op s o; try exact H;
    cbn [transactions insert_transaction update_stock update_stock_meta
         insert_bean op_weight] in *;
    apply Forall_app; (split; [exact H|]);
    (constructor; [|constructor]); unfold sign_ok; cbn; try lra; exact I.
Qed.

Lemma fold_step_sign_ok ops s :
  Forall valid_op ops -> Forall sign_ok (transactions s) ->
  Forall sign_ok (transactions (fold_left step ops s)).
Proof.
  revert s. induction ops as [|o ops IH]; intros s Hv H; cbn.
  - exact H.
  - inversion Hv; subst. apply IH; [assumption|]. now apply step_sign_ok.
Qed.

(** ** Lookup after an update *)

Lemma find_set_rows f i nm l :
  (forall x, Bean.name (f x) = Bean.name x) ->
  find (fun b => String.eqb (Bean.name b) nm) (set_rows f i l) =
  option_map (fun b => if Bean.id b =? i then f b else b)
    (find (fun b => String.eqb (Bean.name b) nm) l).
Proof.
  intros Hf. induction l as [|x l IH]; cbn [set_rows map find].
  - reflexivity.
  - assert (E : Bean.name (if Bean.id x =? i then f x else x) = Bean.name x)
      by (destruct (Bean.id x =? i); [apply Hf | reflexivity]).
    rewrite E. destruct (String.eqb (Bean.name x) nm); [reflexivity|].
    exact IH.
Qed.

Lemma find_app_none {A} (p : A -> bool) l l' :
  find p l = None -> find p (l ++ l') = find p l'.
Proof.
  induction l as [|a l IH]; cbn; [reflexivity|].
  destruct (p a); [discriminate | exact IH].
Qed.

Lemma NoDup_map_In_inj {A B} (g : A -> B) l x y :
  NoDup (map g l) -> In x l -> In y l -> g x = g y -> x = y.
Proof.
  induction l as [|a l IH]; cbn; intros Hnd Hx Hy E; [contradiction|].
  inversion Hnd as [|? ? Hna Hnd']; subst.
  destruct Hx as [->|Hx], Hy as [->|Hy]; auto.
  - exfalso. apply Hna. rewrite E. now apply in_map.
  - exfalso. apply Hna. rewrite <- E. now apply in_map.
Qed.

(** ** ORDER BY *)

Lemma place_In {A} (le : A -> A -> bool) x y l :
  In y (place le x l) <-> y = x \/ In y l.
Proof.
  induction l as [|a l IH]; cbn.
  - intuition.
  - destruct (le x a); cbn; [intuition | rewrite IH; intuition].
Qed.

Lemma order_by_In {A} (le : A -> A -> bool) y l :
  In y (order_by le l) <-> In y l.
Proof.
  induction l as [|a l IH]; cbn; [reflexivity|].
  rewrite place_In, IH. intuition.
Qed.

Lemma place_perm {A} (le : A -> A -> bool) x l :
  Permutation (place le x l) (x :: l).
Proof.
  induction l as [|a l IH]; cbn; [reflexivity|].
  destruct (le x a); [reflexivity|].
  rewrite IH. apply perm_swap.
Qed.

Lemma order_by_perm {A} (le : A -> A -> bool) l :
  Permutation (order_by le l) l.
Proof.
  induction l as [|a l IH]; cbn; [reflexivity|].
  rewrite place_perm. now constructor.
Qed.

Lemma place_sorted {A} (le : A -> A -> bool) x l :
  (forall a b, le a b = false -> le b a = true) ->
  Sorted (fun a b => le a b = true) l ->
  Sorted (fun a b => le a b = true) (place le x l).
Proof.
  intros Htot. induction 1 as [|a l Hs IH Hhd]; cbn.
  - repeat constructor.
  - destruct (le x a) eqn:E.
    + repeat constructor; assumption.
    + constructor; [exact IH|].
      destruct l as [|c l]; cbn.
      * constructor. now apply Htot.
      * destruct (le x c); constructor; [now apply Htot|].
        now inversion Hhd.
Qed.

Lemma order_by_sorted {A} (le : A -> A -> bool) l :
  (forall a b, le a b = false -> le b a = true) ->
  Sorted (fun a b => le a b = true) (order_by le l).
Proof.
  intros Htot. induction l as [|a l IH]; cbn; [constructor|].
  now apply place_sorted.
Qed.

Lemma place_last {A} (le : A -> A -> bool) x l :
  Forall (fun y => le x y = false) l -> place le x l = (l ++ [x])%list.
Proof.
  induction 1 as [|a l Ha _ IH]; cbn; [reflexivity|].
  now rewrite Ha, IH.
Qed.

Lemma firstn_sorted {A} (R : A -> A -> Prop) n l :
  Sorted R l -> Sorted R (firstn n l).
Proof.
  intros Hs. revert n. induction Hs as [|a l Hs IH Hhd]; intros [|n]; cbn;
    try constructor.
  - apply IH.
  - destruct Hhd as [|c l Hc]; destruct n; cbn; constructor. exact Hc.
Qed.

Lemma Sorted_weaken {A} (R R' : A -> A -> Prop) l :
  (forall a b, R a b -> R' a b) -> Sorted R l -> Sorted R' l.
Proof.
  intros Hw. induction 1 as [|a l _ IH Hhd]; constructor; [exact IH|].
  destruct Hhd; constructor. now apply Hw.
Qed.

Lemma firstn_incl {A} n (l : list A) x : In x (firstn n l) -> In x l.
Proof.
  revert n. induction l as [|a l IH]; intros [|n]; cbn; try tauto.
  intros [->|H]; [now left | right; eauto].
Qed.

Lemma string_leb_total a b : String.leb a b = false -> String.leb b a = true.
Proof.
  intros H. destruct (String.leb_total a b) as [E|E]; congruence.
Qed.

(** * The claims *)

(** ** C1 *)

#[local] Set Warnings "-inexact-float".

(** C1 (code bug). With the program's binary64 numbers a bean's stock does
    not stay equal to the sum of its transactions.  A first receipt of
    0.2 followed by a stocktake to 0.9 takes the stocktake branch
    (the difference is not 0), stores the stock 0.9 and records the
    amounts 0.2 and 0.9 - 0.2; their sum is 0.8999999999999999, not the
    stock. *)
Theorem rounding_breaks_ledger_sum :
  let l := Binary64.correct 0.9%float (Binary64.receive_new 0.2%float) in
  PrimFloat.eqb (Binary64.stock_weight l) 0.9%float = true /\
  List.length (Binary64.amount_changes l) = 2%nat /\
  PrimFloat.eqb (Binary64.total l) 0.8999999999999999%float = true /\
  PrimFloat.eqb (Binary64.stock_weight l) (Binary64.total l) = false.
Proof.
  cbv zeta. repeat split; vm_compute; reflexivity.
Qed.

(** Rounding apart, the bookkeeping is right: in the store model, whose
    numbers are exact, after any sequence of receive / consume / correct
    calls issued from a fresh database every bean's [stock_weight] equals
    the sum of [amount_change] over the transactions that reference it,
    and the bean's creation is among them as an INBOUND transaction. *)
Theorem stock_is_ledger_sum (ops : list Op) (b : Bean.t) :
  In b (beans (run ops)) ->
  (Bean.stock_weight b == ledger_sum (Bean.id b) (transactions (run ops)))%Q
  /\ exists t, In t (transactions (run ops)) /\
               Txn.bean_id t = Bean.id b /\
               Txn.action_type t = INBOUND /\ Txn.note t = NoteNewBean.
Proof.
  intros Hb. destruct (run_ledger_ok ops) as [_ _ _ Hbal Hcr]. auto.
Qed.

Lemma stock_is_ledger_sum_witness :
  In sample_bean (beans (run sample_ops)) /\
  (Bean.stock_weight sample_bean ==
   ledger_sum (Bean.id sample_bean) (transactions (run sample_ops)))%Q.
Proof.
  assert (H : In sample_bean (beans (run sample_ops)))
    by (left; reflexivity).
  split; [exact H | exact (proj1 (stock_is_ledger_sum sample_ops _ H))].
Defined.

(** ** C9 *)

(** A receipt and a roast of weight 0 pass [min_value=0.0] and are logged
    with amount 0, which is neither positive nor negative. *)
Lemma zero_weight_not_strictly_signed :
  Forall valid_op [Receive 1 "X" "" "" 0%Q; Consume 2 "X" 0%Q] /\
  ~ Forall strictly_signed
      (transactions (run [Receive 1 "X" "" "" 0%Q; Consume 2 "X" 0%Q])).
Proof.
  split.
  - repeat constructor; unfold valid_op; cbn; discriminate.
  - intros H. inversion H as [|t l Ht _]; subst.
    unfold strictly_signed in Ht. cbn in Ht. discriminate Ht.
Qed.

(** C9 (amended). In every store reached by calls whose weights respect
    the widgets' lower bound 0, each INBOUND transaction has an
    [amount_change] >= 0 and each ROAST transaction an [amount_change]
    <= 0. *)
Theorem inbound_nonneg_roast_nonpos (ops : list Op) :
  Forall valid_op ops ->
  Forall sign_ok (transactions (run ops)).
Proof.
  intros Hv. apply fold_step_sign_ok; [exact Hv | constructor].
Qed.

Lemma inbound_nonneg_roast_nonpos_witness :
  Forall valid_op sample_ops /\
  Forall sign_ok (transactions (run sample_ops)).
Proof.
  assert (H : Forall valid_op sample_ops)
    by (repeat constructor; unfold valid_op; cbn; discriminate).
  split; [exact H | exact (inbound_nonneg_roast_nonpos sample_ops H)].
Defined.

(** ** C3 *)

(** C3. For a non-empty name that no bean carries, [receive] (with any
    weight, in particular any weight >= 0) appends exactly one bean row
    with the given name, origin and process and [stock_weight = weight],
    and appends exactly one transaction, which references that bean and
    has [action_type = INBOUND] and [amount_change = weight]. *)
Theorem receive_new_bean now nm og pr w s :
  nm <> "" -> find_bean nm s = None ->
  exists (s' : Store) (b : Bean.t) (t : Txn.t),
    call (receive now nm og pr w) s = (s', Done w) /\
    beans s' = (beans s ++ [b])%list /\
    Bean.name b = nm /\ Bean.origin b = og /\ Bean.process b = pr /\
    Bean.stock_weight b = w /\
    transactions s' = (transactions s ++ [t])%list /\
    Txn.bean_id t = Bean.id b /\ Txn.action_type t = INBOUND /\
    Txn.amount_change t = w /\ Txn.note t = NoteNewBean.
Proof.
  intros Hnm Hf. rewrite (receive_new now nm og pr w s Hnm Hf).
  do 3 eexists. split; [reflexivity|].
  cbn. repeat split; reflexivity.
Qed.

Lemma receive_new_bean_witness :
  "Yirgacheffe" <> "" /\ find_bean "Yirgacheffe" init_db = None /\
  exists (s' : Store) (b : Bean.t) (t : Txn.t),
    call (receive 1 "Yirgacheffe" "Ethiopia" "Washed" 10%Q) init_db
      = (s', Done 10%Q) /\
    beans s' = (beans init_db ++ [b])%list /\
    Bean.name b = "Yirgacheffe" /\ Bean.origin b = "Ethiopia" /\
    Bean.process b = "Washed" /\ Bean.stock_weight b = 10%Q /\
    transactions s' = (transactions init_db ++ [t])%list /\
    Txn.bean_id t = Bean.id b /\ Txn.action_type t = INBOUND /\
    Txn.amount_change t = 10%Q /\ Txn.note t = NoteNewBean.
Proof.
  assert (H1 : "Yirgacheffe" <> "") by discriminate.
  assert (H2 : find_bean "Yirgacheffe" init_db = None) by reflexivity.
  split; [exact H1|]. split; [exact H2|].
  exact (receive_new_bean 1 "Yirgacheffe" "Ethiopia" "Washed" 10%Q init_db
           H1 H2).
Defined.

(** ** C4 *)

Lemma find_bean_update_stock_meta nm s b ns og pr now :
  find_bean nm s = Some b ->
  find_bean nm (update_stock_meta ns og pr now (Bean.id b) s) =
  Some (Bean.mk (Bean.id b) (Bean.name b) og pr ns now).
Proof.
  unfold find_bean. intros Hf. cbn [beans update_stock_meta].
  rewrite find_set_rows by reflexivity. rewrite Hf. cbn.
  now rewrite Z.eqb_refl.
Qed.

Lemma find_bean_update_stock nm s b ns now :
  find_bean nm s = Some b ->
  find_bean nm (update_stock ns now (Bean.id b) s) =
  Some (Bean.mk (Bean.id b) (Bean.name b) (Bean.origin b) (Bean.process b)
                ns now).
Proof.
  unfold find_bean. intros Hf. cbn [beans update_stock].
  rewrite find_set_rows by reflexivity. rewrite Hf. cbn.
  now rewrite Z.eqb_refl.
Qed.

(** C4. For a non-empty name that a bean [b] already carries, [receive]
    adds no row, leaves the bean with [stock_weight b + weight] and with
    the origin and process now supplied (whatever they are, the empty
    string included), and appends one INBOUND transaction with
    [amount_change = weight].  Hence two receipts of 5 under a name that
    was absent leave that bean with stock 10 and add two INBOUND
    transactions of 5 each. *)
Theorem receive_existing_bean :
  (forall now nm og pr w s b,
     nm <> "" -> find_bean nm s = Some b ->
     exists (s' : Store) (b' : Bean.t) (t : Txn.t),
       call (receive now nm og pr w) s
         = (s', Done (Bean.stock_weight b + w)%Q) /\
       List.length (beans s') = List.length (beans s) /\
       find_bean nm s' = Some b' /\
       Bean.id b' = Bean.id b /\
       Bean.stock_weight b' = (Bean.stock_weight b + w)%Q /\
       Bean.origin b' = og /\ Bean.process b' = pr /\
       transactions s' = (transactions s ++ [t])%list /\
       Txn.bean_id t = Bean.id b /\ Txn.action_type t = INBOUND /\
       Txn.amount_change t = w) /\
  (forall now1 now2 nm og1 pr1 og2 pr2 s,
     nm <> "" -> find_bean nm s = None ->
     exists (b : Bean.t) (t1 t2 : Txn.t),
       let s2 := step (step s (Receive now1 nm og1 pr1 5%Q))
                      (Receive now2 nm og2 pr2 5%Q) in
       find_bean nm s2 = Some b /\ Bean.stock_weight b = 10%Q /\
       transactions s2 = (transactions s ++ [t1; t2])%list /\
       Txn.bean_id t1 = Bean.id b /\ Txn.bean_id t2 = Bean.id b /\
       Txn.action_type t1 = INBOUND /\ Txn.action_type t2 = INBOUND /\
       Txn.amount_change t1 = 5%Q /\ Txn.amount_change t2 = 5%Q).
Proof.
  split.
  - intros now nm og pr w s b Hnm Hf.
    rewrite (receive_existing now nm og pr w s b Hnm Hf).
    do 3 eexists. split; [reflexivity|].
    split; [cbn; unfold set_rows; apply length_map|].
    split; [cbn [find_bean insert_transaction beans];
            apply (find_bean_update_stock_meta nm s b); exact Hf|].
    cbn. repeat split; reflexivity.
  - intros now1 now2 nm og1 pr1 og2 pr2 s Hnm Hf.
    set (b1 := Bean.mk (beans_seq s + 1) nm og1 pr1 5%Q now1).
    set (s1 := insert_transaction (beans_seq s + 1) INBOUND 5%Q NoteNewBean
                 now1 (insert_bean nm og1 pr1 5%Q now1 s)).
    assert (E1 : step s (Receive now1 nm og1 pr1 5%Q) = s1)
      by (cbn [step]; now rewrite (receive_new now1 nm og1 pr1 5%Q s Hnm Hf)).
    assert (Hf1 : find_bean nm s1 = Some b1).
    { unfold find_bean in *. cbn [s1 beans insert_transaction insert_bean].
      rewrite (find_app_none _ _ _ Hf). cbn. now rewrite String.eqb_refl. }
    assert (E2 : step s1 (Receive now2 nm og2 pr2 5%Q) =
                 insert_transaction (Bean.id b1) INBOUND 5%Q NoteInbound now2
                   (update_stock_meta (Bean.stock_weight b1 + 5)%Q og2 pr2
                      now2 (Bean.id b1) s1))
      by (cbn [step];
          now rewrite (receive_existing now2 nm og2 pr2 5%Q s1 b1 Hnm Hf1)).
    do 3 eexists. cbn zeta. rewrite E1, E2.
    split; [cbn [find_bean insert_transaction beans];
            apply (find_bean_update_stock_meta nm s1 b1); exact Hf1|].
    cbn. rewrite <- app_assoc. cbn. repeat split; reflexivity.
Qed.

Lemma receive_existing_bean_witness :
  exists (s' : Store) (b' : Bean.t) (t : Txn.t),
    call (receive 2 "X" "" "" 5%Q) (run [Receive 1 "X" "Kenya" "Natural" 5%Q])
      = (s', Done 10%Q) /\
    find_bean "X" s' = Some b' /\
    Bean.stock_weight b' = 10%Q /\
    Bean.origin b' = "" /\ Bean.process b' = "" /\
    transactions s'
      = (transactions (run [Receive 1 "X" "Kenya" "Natural" 5%Q]) ++ [t])%list
    /\ Txn.action_type t = INBOUND /\ Txn.amount_change t = 5%Q.
Proof.
  assert (H1 : "X" <> "") by discriminate.
  assert (H2 : find_bean "X" (run [Receive 1 "X" "Kenya" "Natural" 5%Q])
               = Some (Bean.mk 1 "X" "Kenya" "Natural" 5%Q 1))
    by reflexivity.
  destruct (proj1 receive_existing_bean 2 "X" "" "" 5%Q _ _ H1 H2)
    as (s' & b' & t & E & _ & Hf & _ & Hs & Ho & Hp & Ht & _ & Ha & Hw).
  exists s', b', t. repeat split; assumption.
Defined.

(** ** C5 *)

(** C5. For a name that a bean [b] carries, [consume] (with any weight, in
    particular any weight >= 0) does not fail: it leaves the bean with
    [stock_weight b - weight], appends one ROAST transaction with
    [amount_change = - weight], and reports the underflow warning exactly
    when the new stock is negative.  Hence a receipt of 3 under a name
    that was absent followed by a roast of 5 gives stock -2 with the
    warning and a ROAST transaction of -5. *)
Theorem consume_allows_underflow :
  (forall now nm w s b,
     find_bean nm s = Some b ->
     exists (s' : Store) (b' : Bean.t) (t : Txn.t) (underflow : bool),
       call (consume now nm w) s
         = (s', Done ((Bean.stock_weight b - w)%Q, underflow)) /\
       (underflow = true <-> (Bean.stock_weight b - w < 0)%Q) /\
       find_bean nm s' = Some b' /\
       Bean.id b' = Bean.id b /\
       Bean.stock_weight b' = (Bean.stock_weight b - w)%Q /\
       transactions s' = (transactions s ++ [t])%list /\
       Txn.bean_id t = Bean.id b /\ Txn.action_type t = ROAST /\
       Txn.amount_change t = (- w)%Q) /\
  (forall now1 now2 nm og pr s,
     nm <> "" -> find_bean nm s = None ->
     exists (s' : Store) (b : Bean.t) (t : Txn.t),
       call (consume now2 nm 5%Q) (step s (Receive now1 nm og pr 3%Q))
         = (s', Done ((-2)%Q, true)) /\
       find_bean nm s' = Some b /\ Bean.stock_weight b = (-2)%Q /\
       transactions s'
         = (transactions (step s (Receive now1 nm og pr 3%Q)) ++ [t])%list /\
       Txn.bean_id t = Bean.id b /\ Txn.action_type t = ROAST /\
       Txn.amount_change t = (-5)%Q).
Proof.
  split.
  - intros now nm w s b Hf.
    rewrite (consume_found now nm w s b Hf).
    do 4 eexists. split; [reflexivity|].
    split.
    { unfold Qltb. rewrite negb_true_iff, <- not_true_iff_false, Qle_bool_iff.
      split; [apply Qnot_le_lt | apply Qlt_not_le]. }
    split; [cbn [find_bean insert_transaction beans];
            apply (find_bean_update_stock nm s b); exact Hf|].
    cbn. repeat split; reflexivity.
  - intros now1 now2 nm og pr s Hnm Hf.
    set (b1 := Bean.mk (beans_seq s + 1) nm og pr 3%Q now1).
    set (s1 := insert_transaction (beans_seq s + 1) INBOUND 3%Q NoteNewBean
                 now1 (insert_bean nm og pr 3%Q now1 s)).
    assert (E1 : step s (Receive now1 nm og pr 3%Q) = s1)
      by (cbn [step]; now rewrite (receive_new now1 nm og pr 3%Q s Hnm Hf)).
    assert (Hf1 : find_bean nm s1 = Some b1).
    { unfold find_bean in *. cbn [s1 beans insert_transaction insert_bean].
      rewrite (find_app_none _ _ _ Hf). cbn. now rewrite String.eqb_refl. }
    rewrite E1, (consume_found now2 nm 5%Q s1 b1 Hf1).
    do 3 eexists. split; [reflexivity|].
    split; [cbn [find_bean insert_transaction beans];
            apply (find_bean_update_stock nm s1 b1); exact Hf1|].
    cbn. repeat split; reflexivity.
Qed.

Lemma consume_allows_underflow_witness :
  exists (s' : Store) (b : Bean.t) (t : Txn.t),
    call (consume 2 "X" 5%Q) (step init_db (Receive 1 "X" "" "" 3%Q))
      = (s', Done ((-2)%Q, true)) /\
    find_bean "X" s' = Some b /\ Bean.stock_weight b = (-2)%Q /\
    Txn.action_type t = ROAST /\ Txn.amount_change t = (-5)%Q.
Proof.
  assert (H1 : "X" <> "") by discriminate.
  assert (H2 : find_bean "X" init_db = None) by reflexivity.
  destruct (proj2 consume_allows_underflow 1 2 "X" "" "" init_db H1 H2)
    as (s' & b & t & E & Hf & Hs & _ & _ & Ha & Hw).
  exists s', b, t. repeat split; assumption.
Defined.

(** ** C6 *)

(** C6 (code bug). A bean whose stock on record is negative cannot be
    corrected: on the stocktake page the number input is created with
    [value = current_stock] and [min_value = 0.0] and raises before the
    button is reached.  For bean X with stock -2 (3 received, 5 roasted)
    a stocktake to 5 ends in that exception, with the connection and
    the store as they were: no new stock, no STOCKTAKE transaction. *)
Theorem stocktake_fails_on_negative_stock :
  fetch_id_stock "X" store_after_underflow = Some (1, (-2)%Q) /\
  bean_list store_after_underflow = ["X"] /\
  stocktake_page 3 0 5%Q (clean store_after_underflow)
    = (clean store_after_underflow, Raised ValueBelowMinError) /\
  script (stocktake_page 3 0 5%Q) (clean store_after_underflow)
    = (clean store_after_underflow, Raised ValueBelowMinError).
Proof.
  repeat split; vm_compute; reflexivity.
Qed.

(** ** C7 *)

(** C7. For a name that a bean [b] carries, [correct] with an actual
    weight equal to its stock leaves the store as it was (no transaction,
    no change of [updated_at] or of anything else) and returns a
    difference equal to 0.  The connection holds no new uncommitted
    write either. *)
Theorem correct_without_difference now nm actual s b :
  find_bean nm s = Some b ->
  (actual == Bean.stock_weight b)%Q ->
  exists diff : Q,
    correct now nm actual (clean s) = (clean s, Done diff) /\
    call (correct now nm actual) s = (s, Done diff) /\
    (diff == 0)%Q.
Proof.
  intros Hf Hw. exists (actual - Bean.stock_weight b)%Q.
  split; [|split].
  - unfold correct, bind, select, clean. cbn.
    rewrite (fetch_found _ _ _ Hf).
    assert (E : Qeq_bool (actual - Bean.stock_weight b) 0 = true)
      by (apply Qeq_bool_iff; lra).
    now rewrite E.
  - exact (correct_same now nm actual s b Hf Hw).
  - lra.
Qed.

Lemma correct_without_difference_witness :
  exists diff : Q,
    call (correct 2 "X" (14 # 2)%Q) (run [Receive 1 "X" "" "" 7%Q])
      = (run [Receive 1 "X" "" "" 7%Q], Done diff) /\ (diff == 0)%Q.
Proof.
  assert (H1 : find_bean "X" (run [Receive 1 "X" "" "" 7%Q])
               = Some (Bean.mk 1 "X" "" "" 7%Q 1)) by reflexivity.
  assert (H2 : (14 # 2 == Bean.stock_weight (Bean.mk 1 "X" "" "" 7%Q 1))%Q)
    by reflexivity.
  destruct (correct_without_difference 2 "X" (14 # 2)%Q _ _ H1 H2)
    as (d & _ & E & Hd).
  exists d. split; assumption.
Defined.

(** ** C8 *)

Lemma bean_list_found nm s :
  In nm (bean_list s) -> exists b, find_bean nm s = Some b.
Proof.
  unfold bean_list. intros Hin. apply order_by_In in Hin.
  apply in_map_iff in Hin. destruct Hin as (x & E & Hx).
  destruct (find_bean nm s) as [b|] eqn:Hf; [now exists b|].
  exfalso. unfold find_bean in Hf.
  pose proof (find_none _ _ Hf x Hx) as H. cbn in H.
  rewrite E, String.eqb_refl in H. discriminate.
Qed.







(** ** C10 *)

Lemma framed_refl nm km s : framed nm km s s.
Proof.
  split; auto.
  - exists []. now rewrite app_nil_r.
  - intros b Hb. exists b. auto.
Qed.

Lemma framed_post nm km s s1 b f a amt n now :
  NoDup (map Bean.id (beans s)) ->
  find_bean nm s = Some b ->
  beans s1 = set_rows f (Bean.id b) (beans s) ->
  transactions s1 = transactions s ->
  (forall x, Bean.id (f x) = Bean.id x) ->
  (forall x, Bean.name (f x) = Bean.name x) ->
  (km = true -> forall x, Bean.origin (f x) = Bean.origin x /\
                          Bean.process (f x) = Bean.process x) ->
  framed nm km s (insert_transaction (Bean.id b) a amt n now s1).
Proof.
  intros Hu Hf Eb Et Hid Hname Hmeta.
  pose proof (find_bean_In _ _ _ Hf) as Hin.
  pose proof (find_bean_name _ _ _ Hf) as Hnm.
  assert (Hother : forall x, In x (beans s) -> Bean.name x <> nm ->
                             Bean.id x <> Bean.id b).
  { intros x Hx Hne E.
    apply (NoDup_map_In_inj Bean.id _ _ _ Hu Hx Hin) in E. congruence. }
  split; cbn [beans transactions insert_transaction]; rewrite ?Eb, ?Et.
  - eexists. reflexivity.
  - intros k x Hk Hne. unfold set_rows. rewrite nth_error_map, Hk. cbn.
    apply nth_error_In in Hk.
    destruct (Z.eqb_spec (Bean.id x) (Bean.id b)) as [E|_]; [|reflexivity].
    now apply Hother in E.
  - intros y Hy Hne. apply In_set_rows in Hy.
    destruct Hy as (x & Hx & [[E ->]|[E ->]]); [|exact Hx].
    exfalso. rewrite Hname in Hne. now apply (Hother x Hx Hne).
  - intros b0 Hb0. rewrite Hf in Hb0. injection Hb0 as <-.
    exists (f b). split.
    + unfold find_bean in *. cbn [beans insert_transaction]. rewrite Eb.
      rewrite find_set_rows by exact Hname. rewrite Hf. cbn.
      now rewrite Z.eqb_refl.
    + split; [apply Hid|]. split; [apply Hname|].
      intros Hkm. apply (Hmeta Hkm).
Qed.

Lemma framed_create nm km s og pr w a amt n now :
  find_bean nm s = None ->
  framed nm km s
    (insert_transaction (beans_seq s + 1) a amt n now
       (insert_bean nm og pr w now s)).
Proof.
  intros Hf.
  split; cbn [beans transactions insert_transaction insert_bean].
  - eexists. reflexivity.
  - intros k x Hk _. rewrite nth_error_app1; [exact Hk|].
    apply nth_error_Some. congruence.
  - intros y Hy Hne. apply in_app_or in Hy.
    destruct Hy as [Hy|[<-|[]]]; [exact Hy|]. now cbn in Hne.
  - intros b Hb. congruence.
Qed.

(** C10. Whatever calls came before, a call leaves every bean row that
    does not carry its target name exactly as it was and in place, adds no
    such row, and keeps all earlier transactions as a prefix of the
    transaction table; the target row keeps its id and name, and under
    [consume] and [correct] also its origin and process. *)
Theorem calls_touch_only_their_target (ops : list Op) (o : Op) :
  framed (op_name o) (negb (is_receive o)) (run ops) (step (run ops) o).
Proof.
  pose proof (ids_unique _ (run_ledger_ok ops)) as Hu.
  set (s := run ops) in *.
  by_cases_of_op s o; cbn [op_name is_receive negb];
    try apply framed_refl;
    try (now apply framed_create);
    (eapply framed_post with (s := s);
     [ exact Hu | eassumption | reflexivity | reflexivity
     | reflexivity | reflexivity
     | first [ discriminate | intros _ x; split; reflexivity ] ]).
Qed.

(** ** C2 *)

(** C2 (code bug). The handlers run UPDATE, INSERT and one commit, and
    nothing rolls back when a statement raises.  On a script run in
    which the INSERT of the transaction fails after the UPDATE of the
    bean, [consume] raises and the committed database is still
    untouched, but the connection, which is cached and shared by all
    later runs, now answers stock -2 where it answered 3, with no ROAST
    transaction; and the very next script run, a mere view of the
    dashboard, commits that in [init_db()]: the bean's new stock is
    durable without its transaction. *)
Theorem failed_insert_leaves_bean_update :
  let c1 := fst (script (consume 2 "X" 5%Q) insert_fails) in
  let c2 := fst (script (select dashboard) c1) in
  snd (script (consume 2 "X" 5%Q) insert_fails) = Raised StorageError /\
  committed c1 = store_after_X3 /\
  fetch_id_stock "X" (working insert_fails) = Some (1, 3%Q) /\
  fetch_id_stock "X" (working c1) = Some (1, (-2)%Q) /\
  transactions (working c1) = transactions store_after_X3 /\
  fetch_id_stock "X" (committed c2) = Some (1, (-2)%Q) /\
  transactions (committed c2) = transactions store_after_X3 /\
  ledger_sum 1 (transactions (committed c2)) = 3%Q.
Proof.
  cbv zeta. repeat split; vm_compute; reflexivity.
Qed.

(** On a connection with nothing uncommitted, the [init_db()] of a script
    run changes nothing: a healthy session is the sequence of its
    handlers. *)
Lemma script_on_clean {A} (page : M A) (s : Store) :
  script page (clean s) = page (clean s).
Proof. reflexivity. Qed.

(** * Further properties of the code *)

(** ** Every call has one of three effects *)

Lemma step_effect s o : effect s (step s o).
Proof.
  by_cases_of_op s o; try apply effect_none;
    try (now apply effect_create);
    (eapply effect_post with (s := s);
     [ eapply find_bean_In; eassumption | reflexivity.. | discriminate ]).
Qed.

Lemma set_rows_names f i l :
  (forall x, Bean.name (f x) = Bean.name x) ->
  map Bean.name (set_rows f i l) = map Bean.name l.
Proof.
  intros Hf. unfold set_rows. rewrite map_map. apply map_ext.
  intros x. destruct (Bean.id x =? i); [apply Hf | reflexivity].
Qed.

Lemma set_rows_length f i l : List.length (set_rows f i l) = List.length l.
Proof. unfold set_rows. apply length_map. Qed.

Lemma find_bean_none_not_in nm s :
  find_bean nm s = None -> ~ In nm (map Bean.name (beans s)).
Proof.
  unfold find_bean. intros Hf Hin. apply in_map_iff in Hin.
  destruct Hin as (x & E & Hx).
  pose proof (find_none _ _ Hf x Hx) as H. cbn in H.
  rewrite E, String.eqb_refl in H. discriminate.
Qed.

Lemma seq_snoc_Z (n : nat) :
  map Z.of_nat (seq 1 (S n)) = (map Z.of_nat (seq 1 n) ++ [Z.of_nat n + 1])%list.
Proof.
  rewrite seq_S, map_app. cbn [map]. do 2 f_equal. lia.
Qed.

Lemma schema_ok_init : schema_ok init_db.
Proof. split; cbn; constructor. Qed.

Lemma effect_schema_ok s s' : effect s s' -> schema_ok s -> schema_ok s'.
Proof.
  intros He [Hn Hb Hi Ht Hc Hd Hr].
  destruct He as [| b f a amt n now s1 Hin Eb Et Es Eq Hid Hname Hnote
                  | nm og pr w now Hnm Hf].
  - now split.
  - split; cbn [beans transactions beans_seq transactions_seq
                insert_transaction]; rewrite ?Eb, ?Et, ?Es, ?Eq.
    + now rewrite set_rows_names.
    + rewrite Forall_forall in *. intros y Hy. apply In_set_rows in Hy.
      destruct Hy as (x & Hx & [[E ->]|[E ->]]); rewrite ?Hname; auto.
    + now rewrite set_rows_ids, set_rows_length.
    + rewrite map_app, length_app, Nat.add_1_r, seq_snoc_Z, Ht, Hd.
      reflexivity.
    + now rewrite set_rows_length.
    + rewrite length_app, Nat.add_1_r, Hd. cbn [List.length]. lia.
    + rewrite set_rows_ids by exact Hid. apply Forall_app. split; [exact Hr|].
      constructor; [|constructor]. cbn. now apply in_map.
  - split; cbn [beans transactions beans_seq transactions_seq
                insert_transaction insert_bean].
    + rewrite map_app. cbn [map Bean.name].
      apply NoDup_app; [exact Hn | repeat constructor; intros [] |].
      intros x Hx [<-|[]]. now apply (find_bean_none_not_in _ _ Hf).
    + apply Forall_app. split; [exact Hb|]. now repeat constructor.
    + rewrite map_app, length_app, Nat.add_1_r, seq_snoc_Z, Hi, Hc.
      reflexivity.
    + rewrite map_app, length_app, Nat.add_1_r, seq_snoc_Z, Ht, Hd.
      reflexivity.
    + rewrite length_app, Nat.add_1_r, Hc. cbn [List.length]. lia.
    + rewrite length_app, Nat.add_1_r, Hd. cbn [List.length]. lia.
    + rewrite map_app. apply Forall_app. split.
      * eapply Forall_impl; [|exact Hr]. cbn. intros t Ht'.
        apply in_or_app. now left.
      * constructor; [|constructor]. cbn. apply in_or_app. right. now left.
Qed.

(** Induction over the calls of a session, with the invariants at hand. *)
Lemma run_ind (V : Op -> Prop) (P : Store -> Prop) :
  P init_db ->
  (forall s o, V o -> ledger_ok s -> schema_ok s -> P s -> P (step s o)) ->
  forall ops, Forall V ops -> P (run ops).
Proof.
  intros H0 Hstep ops Hv. unfold run.
  assert (G : forall l s, Forall V l -> ledger_ok s -> schema_ok s -> P s ->
                          P (fold_left step l s)).
  { induction l as [|o l IH]; intros s Hl Hk Hs Hp; cbn; [exact Hp|].
    inversion Hl; subst. apply IH; auto using step_ledger_ok.
    eapply effect_schema_ok; [apply step_effect | exact Hs]. }
  apply G; auto using ledger_ok_init, schema_ok_init.
Qed.

Lemma always_true_ops (ops : list Op) : Forall (fun _ => True) ops.
Proof. apply Forall_forall. intros; exact I. Qed.

Lemma run_schema_ok ops : schema_ok (run ops).
Proof.
  apply (run_ind (fun _ => True) schema_ok); auto using schema_ok_init,
    always_true_ops.
  intros s o _ _ Hs _. eapply effect_schema_ok; [apply step_effect | exact Hs].
Qed.

(** ** The schema constraints hold without being enforced *)

(** X1. In every store reached by receive / consume / correct calls from a
    fresh database the bean names are pairwise distinct and none is
    blank: the UNIQUE and NOT NULL constraints on [beans.name] are never
    put to the test. *)
Theorem names_stay_unique_and_not_blank (ops : list Op) :
  NoDup (map Bean.name (beans (run ops))) /\
  Forall (fun b => Bean.name b <> "") (beans (run ops)).
Proof.
  destruct (run_schema_ok ops) as [Hn Hb _ _ _ _ _]. now split.
Qed.

Lemma find_unique_name (l : list Bean.t) b :
  NoDup (map Bean.name l) -> In b l ->
  find (fun x => String.eqb (Bean.name x) (Bean.name b)) l = Some b.
Proof.
  induction l as [|a l IH]; cbn; intros Hnd Hin; [contradiction|].
  inversion Hnd as [|? ? Hna Hnd']; subst.
  destruct Hin as [->|Hin].
  - now rewrite String.eqb_refl.
  - destruct (String.eqb_spec (Bean.name a) (Bean.name b)) as [E|_].
    + exfalso. apply Hna. rewrite E. now apply in_map.
    + now apply IH.
Qed.

(** X2. Every bean row of a reached store is the row that the lookup by
    its name returns: the SELECT ... WHERE name=? of the handlers gives
    this row's id and stock, never those of another row. *)
Theorem lookup_returns_the_row (ops : list Op) (b : Bean.t) :
  In b (beans (run ops)) ->
  find_bean (Bean.name b) (run ops) = Some b /\
  fetch_id_stock (Bean.name b) (run ops)
    = Some (Bean.id b, Bean.stock_weight b).
Proof.
  intros Hin.
  assert (Hf : find_bean (Bean.name b) (run ops) = Some b).
  { unfold find_bean. apply find_unique_name; [|exact Hin].
    apply (names_unique _ (run_schema_ok ops)). }
  split; [exact Hf | now apply fetch_found].
Qed.

Lemma lookup_returns_the_row_witness :
  In sample_bean (beans (run sample_ops)) /\
  find_bean "X" (run sample_ops) = Some sample_bean /\
  fetch_id_stock "X" (run sample_ops) = Some (1, (1 # 2)%Q).
Proof.
  assert (H : In sample_bean (beans (run sample_ops)))
    by (left; reflexivity).
  split; [exact H | exact (lookup_returns_the_row sample_ops sample_bean H)].
Defined.

(** X3. AUTOINCREMENT numbers the rows of both tables 1, 2, 3, ... in
    insertion order without gaps, and each counter equals the number of
    rows of its table. *)
Theorem ids_are_consecutive (ops : list Op) :
  map Bean.id (beans (run ops))
    = map Z.of_nat (seq 1 (List.length (beans (run ops)))) /\
  map Txn.id (transactions (run ops))
    = map Z.of_nat (seq 1 (List.length (transactions (run ops)))) /\
  beans_seq (run ops) = Z.of_nat (List.length (beans (run ops))) /\
  transactions_seq (run ops)
    = Z.of_nat (List.length (transactions (run ops))).
Proof.
  destruct (run_schema_ok ops) as [_ _ Hi Ht Hc Hd _]. auto.
Qed.

(** X4. Referential integrity: every transaction of a reached store
    references exactly one bean row, although nothing enforces the
    FOREIGN KEY. *)
Theorem every_transaction_has_its_bean (ops : list Op) (t : Txn.t) :
  In t (transactions (run ops)) ->
  exists b, In b (beans (run ops)) /\ Bean.id b = Txn.bean_id t /\
            forall b', In b' (beans (run ops)) ->
                       Bean.id b' = Txn.bean_id t -> b' = b.
Proof.
  intros Hin.
  pose proof (references_exist _ (run_schema_ok ops)) as Hr.
  pose proof (ids_unique _ (run_ledger_ok ops)) as Hu.
  rewrite Forall_forall in Hr. specialize (Hr t Hin).
  apply in_map_iff in Hr. destruct Hr as (b & E & Hb).
  exists b. split; [exact Hb|]. split; [exact E|].
  intros b' Hb' E'.
  apply (NoDup_map_In_inj Bean.id _ _ _ Hu Hb' Hb). congruence.
Qed.

Lemma every_transaction_has_its_bean_witness :
  In (Txn.mk 3 1 ROAST (-12)%Q NoteRoast 3) (transactions (run sample_ops)) /\
  exists b, In b (beans (run sample_ops)) /\ Bean.id b = 1.
Proof.
  assert (H : In (Txn.mk 3 1 ROAST (-12)%Q NoteRoast 3)
                 (transactions (run sample_ops)))
    by (right; right; left; reflexivity).
  split; [exact H|].
  destruct (every_transaction_has_its_bean sample_ops _ H) as (b & Hb & E & _).
  exists b. split; assumption.
Defined.

(** ** Nothing is ever deleted or rewritten *)

Lemma continues_refl s : continues s s.
Proof.
  split.
  - exists []. now rewrite app_nil_r.
  - intros k b Hk. exists b. auto.
Qed.

Lemma continues_trans s1 s2 s3 :
  continues s1 s2 -> continues s2 s3 -> continues s1 s3.
Proof.
  intros [[l1 E1] H1] [[l2 E2] H2]. split.
  - exists (l1 ++ l2)%list. now rewrite E2, E1, app_assoc.
  - intros k b Hk. destruct (H1 k b Hk) as (b1 & Hk1 & Ei & En).
    destruct (H2 k b1 Hk1) as (b2 & Hk2 & Ei2 & En2).
    exists b2. repeat split; congruence.
Qed.

Lemma effect_continues s s' : effect s s' -> continues s s'.
Proof.
  intros [| b f a amt n now s1 Hin Eb Et Es Eq Hid Hname Hnote
          | nm og pr w now Hnm Hf].
  - apply continues_refl.
  - split; cbn [beans transactions insert_transaction]; rewrite ?Eb, ?Et.
    + eexists. reflexivity.
    + intros k x Hk. unfold set_rows. rewrite nth_error_map, Hk. cbn.
      eexists. split; [reflexivity|].
      destruct (Bean.id x =? Bean.id b); auto.
  - split; cbn [beans transactions insert_transaction insert_bean].
    + eexists. reflexivity.
    + intros k x Hk. exists x. split; [|auto].
      rewrite nth_error_app1; [exact Hk|].
      apply nth_error_Some. congruence.
Qed.

Lemma fold_step_continues more s : continues s (fold_left step more s).
Proof.
  revert s. induction more as [|o more IH]; intros s; cbn.
  - apply continues_refl.
  - eapply continues_trans; [|apply IH].
    apply effect_continues, step_effect.
Qed.

(** X5. However a session goes on, what it has recorded stays: the
    transaction table after more calls starts with the transaction table
    as it was, row for row, and every bean row is still at its place
    with the same id and name.  No call deletes or rewrites a
    transaction, deletes a bean, or renames or renumbers one. *)
Theorem history_is_kept (ops more : list Op) :
  continues (run ops) (run (ops ++ more)).
Proof.
  unfold run. rewrite fold_left_app. apply fold_step_continues.
Qed.

(** ** One creation record per bean *)

Lemma creation_records_snoc i l t :
  creation_records i (l ++ [t])
  = (creation_records i l ++ creation_records i [t])%list.
Proof. unfold creation_records. apply filter_app. Qed.

Lemma creation_records_fresh i n l :
  Forall (fun t => Txn.bean_id t <= n) l -> n < i -> creation_records i l = [].
Proof.
  intros H Hi. unfold creation_records.
  induction H as [|t l Ht _ IH]; cbn; [reflexivity|].
  destruct (Z.eqb_spec (Txn.bean_id t) i); [lia | exact IH].
Qed.

Lemma effect_one_creation s s' :
  effect s s' -> ledger_ok s ->
  (forall b, In b (beans s) ->
     List.length (creation_records (Bean.id b) (transactions s)) = 1%nat) ->
  forall b, In b (beans s') ->
    List.length (creation_records (Bean.id b) (transactions s')) = 1%nat.
Proof.
  intros He [Hb Hr _ _ _] H.
  destruct He as [| b0 f a amt n now s1 Hin Eb Et Es Eq Hid Hname Hnote
                  | nm og pr w now Hnm Hf];
    [exact H | |];
    cbn [beans transactions insert_transaction insert_bean];
    rewrite ?Eb, ?Et; intros y Hy; rewrite creation_records_snoc.
  - assert (E : creation_records (Bean.id y)
                  [Txn.mk (transactions_seq s1 + 1) (Bean.id b0) a amt n now]
                = []).
    { unfold creation_records. cbn.
      destruct n; try contradiction; now rewrite andb_false_r. }
    rewrite E, app_nil_r. apply In_set_rows in Hy.
    destruct Hy as (x & Hx & [[_ ->]|[_ ->]]); rewrite ?Hid; now apply H.
  - apply in_app_or in Hy. destruct Hy as [Hy|[<-|[]]].
    + rewrite Forall_forall in Hb. specialize (Hb y Hy). cbn in Hb.
      unfold creation_records at 2. cbn.
      destruct (Z.eqb_spec (beans_seq s + 1) (Bean.id y)); [lia|].
      cbn. rewrite app_nil_r. now apply H.
    + cbn [Bean.id].
      rewrite (creation_records_fresh _ (beans_seq s) _ Hr) by lia.
      unfold creation_records. cbn. now rewrite Z.eqb_refl.
Qed.

(** X6. Every bean of a reached store has exactly one creation record
    (note '新豆建檔') among the transactions that reference it: a repeated
    receipt under the same name never creates the bean anew. *)
Theorem one_creation_record_per_bean (ops : list Op) (b : Bean.t) :
  In b (beans (run ops)) ->
  List.length (creation_records (Bean.id b) (transactions (run ops))) = 1%nat.
Proof.
  revert b.
  apply (run_ind (fun _ => True)
           (fun s => forall b, In b (beans s) ->
              List.length (creation_records (Bean.id b) (transactions s))
              = 1%nat)); [intros b [] | | apply always_true_ops].
  intros s o _ Hk _ H. exact (effect_one_creation _ _ (step_effect s o) Hk H).
Qed.

Lemma one_creation_record_per_bean_witness :
  In sample_bean (beans (run sample_ops)) /\
  List.length (creation_records (Bean.id sample_bean)
                 (transactions (run sample_ops))) = 1%nat.
Proof.
  assert (H : In sample_bean (beans (run sample_ops)))
    by (left; reflexivity).
  split; [exact H | exact (one_creation_record_per_bean sample_ops _ H)].
Defined.

(** ** Stock goes negative only by roasting *)

Lemma roast_trace_post s s1 b f ns a amt n now :
  negative_only_after_roast s -> In b (beans s) ->
  beans s1 = set_rows f (Bean.id b) (beans s) ->
  transactions s1 = transactions s ->
  (forall x, Bean.id (f x) = Bean.id x) ->
  (forall x, Bean.stock_weight (f x) = ns) ->
  ((ns < 0)%Q -> a = ROAST \/ (Bean.stock_weight b < 0)%Q) ->
  negative_only_after_roast (insert_transaction (Bean.id b) a amt n now s1).
Proof.
  intros H Hin Eb Et Hid Hst Hneg y Hy Hlt.
  cbn [beans transactions insert_transaction] in *. rewrite Eb in Hy.
  rewrite Et. apply In_set_rows in Hy.
  destruct Hy as (x & Hx & [[E ->]|[E ->]]).
  - rewrite Hst in Hlt. rewrite Hid, E.
    destruct (Hneg Hlt) as [->|Hb].
    + eexists. split; [apply in_or_app; right; left; reflexivity|].
      cbn. auto.
    + destruct (H b Hin Hb) as (t & Ht & Hrest).
      exists t. split; [apply in_or_app; now left | exact Hrest].
  - destruct (H x Hx Hlt) as (t & Ht & Hrest).
    exists t. split; [apply in_or_app; now left | exact Hrest].
Qed.

Lemma step_roast_trace s o :
  valid_op o -> negative_only_after_roast s ->
  negative_only_after_roast (step s o).
Proof.
  unfold valid_op. intros Hv H.
  by_cases_of_op s o; try exact H; cbn [op_weight] in Hv.
  - eapply roast_trace_post
      with (s := s) (ns := (Bean.stock_weight b + w)%Q);
      [ exact H | eapply find_bean_In; eassumption | reflexivity..
      | intros Hlt; right; lra ].
  - intros y Hy Hlt.
    cbn [beans transactions insert_transaction insert_bean] in *.
    apply in_app_or in Hy. destruct Hy as [Hy|[<-|[]]].
    + destruct (H y Hy Hlt) as (t & Ht & Hrest).
      exists t. split; [apply in_or_app; now left | exact Hrest].
    + cbn [Bean.stock_weight] in Hlt. lra.
  - eapply roast_trace_post
      with (s := s) (ns := (Bean.stock_weight b - w)%Q);
      [ exact H | eapply find_bean_In; eassumption | reflexivity..
      | intros _; now left ].
  - eapply roast_trace_post with (s := s) (ns := w);
      [ exact H | eapply find_bean_In; eassumption | reflexivity..
      | intros Hlt; lra ].
Qed.

(** X7. With weights that respect the widgets' lower bound 0, a bean's
    stock is negative only if a ROAST transaction references the bean:
    receipts and stocktake corrections alone never take a stock below
    zero. *)
Theorem negative_stock_only_after_roast (ops : list Op) (b : Bean.t) :
  Forall valid_op ops ->
  In b (beans (run ops)) -> (Bean.stock_weight b < 0)%Q ->
  exists t, In t (transactions (run ops)) /\ Txn.bean_id t = Bean.id b /\
            Txn.action_type t = ROAST.
Proof.
  intros Hv. revert b.
  apply (run_ind valid_op negative_only_after_roast); [intros b [] | | exact Hv].
  intros s o Ho _ _ H. now apply step_roast_trace.
Qed.

Lemma negative_stock_only_after_roast_witness :
  exists t,
    In t (transactions (run [Receive 1 "X" "" "" 3%Q; Consume 2 "X" 5%Q])) /\
    Txn.bean_id t = 1 /\ Txn.action_type t = ROAST.
Proof.
  assert (Hv : Forall valid_op [Receive 1 "X" "" "" 3%Q; Consume 2 "X" 5%Q])
    by (repeat constructor; unfold valid_op; cbn; discriminate).
  assert (Hb : In (Bean.mk 1 "X" "" "" (-2)%Q 2)
                  (beans (run [Receive 1 "X" "" "" 3%Q; Consume 2 "X" 5%Q])))
    by (left; reflexivity).
  assert (Hn : (Bean.stock_weight (Bean.mk 1 "X" "" "" (-2)%Q 2) < 0)%Q)
    by reflexivity.
  exact (negative_stock_only_after_roast _ _ Hv Hb Hn).
Defined.

(** ** The dashboard *)

Lemma effect_counts_creations s s' :
  effect s s' ->
  List.length (filter is_creation (transactions s))
    = List.length (beans s) ->
  List.length (filter is_creation (transactions s'))
    = List.length (beans s').
Proof.
  intros [| b f a amt n now s1 Hin Eb Et Es Eq Hid Hname Hnote
          | nm og pr w now Hnm Hf] H; [exact H | |];
    cbn [beans transactions insert_transaction insert_bean];
    rewrite ?Eb, ?Et, filter_app, !length_app.
  - rewrite set_rows_length, H. unfold is_creation. cbn.
    destruct n; try contradiction; cbn; lia.
  - rewrite H. reflexivity.
Qed.

Lemma run_counts_creations ops :
  List.length (filter is_creation (transactions (run ops)))
  = List.length (beans (run ops)).
Proof.
  apply (run_ind (fun _ => True)
           (fun s => List.length (filter is_creation (transactions s))
                     = List.length (beans s)));
    [reflexivity | | apply always_true_ops].
  intros s o _ _ _ H. exact (effect_counts_creations _ _ (step_effect s o) H).
Qed.

Lemma dashboard_cases (s : Store) :
  match dashboard s with
  | NoStockInfo => beans s = []
  | Metrics total_stock kinds df =>
      total_stock = column_sum (dashboard_rows s) /\
      kinds = List.length (beans s) /\ df = dashboard_rows s /\
      beans s <> []
  end.
Proof.
  unfold dashboard, dashboard_rows. destruct (beans s) as [|b l].
  - reflexivity.
  - cbn [map]. split; [reflexivity|]. split; [|split; [reflexivity|]].
    + cbn [List.length]. now rewrite length_map.
    + discriminate.
Qed.

(** X8. On a reached store the dashboard either shows the notice that
    there is no stock data, and then no transaction has been logged, or
    shows the table with one row per bean and as number of kinds the
    number of creation records in the transaction table, which is then
    not empty. *)
Theorem dashboard_counts_created_beans (ops : list Op) :
  match dashboard (run ops) with
  | NoStockInfo => transactions (run ops) = []
  | Metrics total_stock kinds df =>
      kinds = List.length (filter is_creation (transactions (run ops))) /\
      List.length df = kinds /\
      df = dashboard_rows (run ops) /\
      (0 < kinds)%nat
  end.
Proof.
  pose proof (references_exist _ (run_schema_ok ops)) as Hr.
  pose proof (run_counts_creations ops) as Hc.
  pose proof (dashboard_cases (run ops)) as Hd.
  destruct (dashboard (run ops)) as [|total kinds df].
  - rewrite Hd in Hr.
    destruct (transactions (run ops)) as [|t ts]; [reflexivity|].
    inversion Hr as [|? ? Ht _]; subst. destruct Ht.
  - destruct Hd as (_ & -> & -> & Hne).
    split; [now symmetry|]. split; [apply length_map|].
    split; [reflexivity|].
    destruct (beans (run ops)); [contradiction | cbn; lia].
Qed.

(** ** The selectbox of the roast and stocktake pages *)

Lemma stocktake_open now nm w (c : Conn) b :
  find_bean nm (working c) = Some b -> (0 <= Bean.stock_weight b)%Q ->
  stocktake now nm w c = correct now nm w c.
Proof.
  intros Hf Hge. unfold stocktake, bind at 1, select at 1.
  rewrite (fetch_found _ _ _ Hf).
  assert (E : Qltb (Bean.stock_weight b) 0 = false)
    by (unfold Qltb; apply negb_false_iff; now apply Qle_bool_iff).
  now rewrite E.
Qed.

Lemma stocktake_shut now nm w (c : Conn) b :
  find_bean nm (working c) = Some b -> (Bean.stock_weight b < 0)%Q ->
  stocktake now nm w c = (c, Raised ValueBelowMinError).
Proof.
  intros Hf Hlt. unfold stocktake, bind, select.
  rewrite (fetch_found _ _ _ Hf).
  assert (E : Qltb (Bean.stock_weight b) 0 = true).
  { unfold Qltb. apply negb_true_iff.
    destruct (Qle_bool 0 (Bean.stock_weight b)) eqn:El; [|reflexivity].
    apply Qle_bool_iff in El. lra. }
  now rewrite E.
Qed.

(** X9. Any name the selectbox offers is found by the lookup.  On a
    healthy connection [consume] completes for it, whatever the weight;
    the stocktake completes for it when the stock on record is not
    negative, and when it is negative the number input raises and
    nothing is written.  The unpacking of [fetchone()] never raises for
    a selection made from the list. *)
Theorem offered_name_is_found (s : Store) (nm : string) (now : Z) (w : Q) :
  In nm (bean_list s) ->
  exists b, find_bean nm s = Some b /\
    (exists s' r, call (consume now nm w) s = (s', Done r)) /\
    ((0 <= Bean.stock_weight b)%Q ->
     exists s' d, call (stocktake now nm w) s = (s', Done d)) /\
    ((Bean.stock_weight b < 0)%Q ->
     call (stocktake now nm w) s = (s, Raised ValueBelowMinError)).
Proof.
  intros Hin. destruct (bean_list_found nm s Hin) as [b Hf].
  exists b. split; [exact Hf|]. split; [|split].
  - rewrite (consume_found now nm w s b Hf). eauto.
  - intros Hge. unfold call.
    rewrite (stocktake_open now nm w (clean s) b Hf Hge).
    fold (call (correct now nm w) s).
    destruct (Qeq_dec w (Bean.stock_weight b)) as [Hw|Hw].
    + rewrite (correct_same now nm w s b Hf Hw). eauto.
    + rewrite (correct_changed now nm w s b Hf Hw). eauto.
  - intros Hlt. unfold call.
    now rewrite (stocktake_shut now nm w (clean s) b Hf Hlt).
Qed.

Lemma offered_name_is_found_witness :
  In "Y" (bean_list (run sample_ops)) /\
  (exists s' r, call (consume 9 "Y" 1%Q) (run sample_ops) = (s', Done r)) /\
  (exists s' d, call (stocktake 9 "Y" 1%Q) (run sample_ops) = (s', Done d)).
Proof.
  assert (H : In "Y" (bean_list (run sample_ops)))
    by (right; left; reflexivity).
  split; [exact H|].
  destruct (offered_name_is_found (run sample_ops) "Y" 9 1%Q H)
    as (b & Hf & Hc & Hopen & _).
  split; [exact Hc|].
  apply Hopen. injection Hf as <-. cbn. discriminate.
Defined.

(** X10. On a reached store the selectbox offers the stored bean names
    in ascending order, each stored name once and nothing else; it is
    empty (and the roast page shows its warning instead) exactly when
    there is no bean. *)
Theorem bean_list_is_the_sorted_names (ops : list Op) :
  Sorted (fun a b => String.leb a b = true) (bean_list (run ops)) /\
  Permutation (bean_list (run ops)) (map Bean.name (beans (run ops))) /\
  NoDup (bean_list (run ops)) /\
  (bean_list (run ops) = [] <-> beans (run ops) = []).
Proof.
  pose proof (order_by_perm String.leb (map Bean.name (beans (run ops))))
    as Hp. fold (bean_list (run ops)) in Hp.
  split; [apply order_by_sorted, string_leb_total|].
  split; [exact Hp|]. split.
  - apply (Permutation_NoDup (Permutation_sym Hp)).
    apply (names_unique _ (run_schema_ok ops)).
  - split; intros E.
    + rewrite E in Hp. apply Permutation_nil in Hp.
      now apply map_eq_nil in Hp.
    + unfold bean_list. now rewrite E.
Qed.

(** ** The change log *)

Lemma filter_by_id_absent (i : Z) (l : list Bean.t) :
  ~ In i (map Bean.id l) -> filter (fun b => i =? Bean.id b) l = [].
Proof.
  induction l as [|x l IH]; cbn; intros Hn; [reflexivity|].
  destruct (Z.eqb_spec i (Bean.id x)) as [E|_].
  - exfalso. apply Hn. left. now symmetry.
  - apply IH. intros Hi. apply Hn. now right.
Qed.

Lemma filter_by_id_unique (i : Z) (l : list Bean.t) :
  NoDup (map Bean.id l) -> In i (map Bean.id l) ->
  exists b, In b l /\ Bean.id b = i /\
            filter (fun x => i =? Bean.id x) l = [b].
Proof.
  induction l as [|x l IH]; cbn; intros Hnd Hin; [contradiction|].
  inversion Hnd as [|? ? Hna Hnd']; subst.
  destruct (Z.eqb_spec i (Bean.id x)) as [E|E].
  - exists x. split; [now left|]. split; [now symmetry|].
    rewrite filter_by_id_absent; [reflexivity | now rewrite E].
  - destruct Hin as [Hx|Hin]; [congruence|].
    destruct (IH Hnd' Hin) as (b & Hb & Ei & Ef).
    exists b. split; [now right|]. now split.
Qed.

Lemma join_rows (l : list Bean.t) (txns : list Txn.t) :
  NoDup (map Bean.id l) ->
  Forall (fun t => In (Txn.bean_id t) (map Bean.id l)) txns ->
  Forall2 (fun t r => exists b, In b l /\ Bean.id b = Txn.bean_id t /\
                                r = log_row t b)
    txns
    (flat_map (fun t => map (log_row t)
                          (filter (fun b => Txn.bean_id t =? Bean.id b) l))
              txns).
Proof.
  intros Hnd Hr. induction Hr as [|t txns Ht _ IH]; cbn [flat_map].
  - constructor.
  - destruct (filter_by_id_unique _ _ Hnd Ht) as (b & Hb & Ei & Ef).
    rewrite Ef. cbn [map app]. constructor; [|exact IH].
    exists b. auto.
Qed.

(** X11. On a reached store the JOIN of the change log yields exactly one
    row per transaction, in table order, carrying that transaction's
    time, action, amount and note and the name of the bean it
    references: no transaction is dropped or shown twice. *)
Theorem log_join_has_one_row_per_transaction (ops : list Op) :
  Forall2 (fun t r => exists b, In b (beans (run ops)) /\
                                Bean.id b = Txn.bean_id t /\
                                r = log_row t b)
          (transactions (run ops)) (log_join (run ops)).
Proof.
  apply join_rows.
  - apply (ids_unique _ (run_ledger_ok ops)).
  - apply (references_exist _ (run_schema_ok ops)).
Qed.

Lemma Forall2_same_length {A B} (R : A -> B -> Prop) l l' :
  Forall2 R l l' -> List.length l = List.length l'.
Proof. induction 1; cbn; congruence. Qed.

(** X12. On a reached store the change log shows min(100, number of
    transactions) rows, each of them a row of the JOIN, ordered by time
    with the newest first. *)
Theorem transaction_log_is_newest_first (ops : list Op) :
  List.length (transaction_log (run ops))
    = Nat.min 100 (List.length (transactions (run ops))) /\
  Sorted (fun r1 r2 => log_time r2 <= log_time r1)
         (transaction_log (run ops)) /\
  (forall r, In r (transaction_log (run ops)) -> In r (log_join (run ops))).
Proof.
  unfold transaction_log. split; [|split].
  - rewrite length_firstn.
    rewrite (Permutation_length (order_by_perm _ _)).
    unfold log_join.
    now rewrite <- (Forall2_same_length _ _ _
                     (join_rows _ _ (ids_unique _ (run_ledger_ok ops))
                        (references_exist _ (run_schema_ok ops)))).
  - apply firstn_sorted.
    apply Sorted_weaken
      with (R := fun r1 r2 => (log_time r2 <=? log_time r1) = true).
    + intros a b H. now apply Z.leb_le.
    + apply (order_by_sorted (fun r1 r2 => log_time r2 <=? log_time r1)).
      intros a b H. apply Z.leb_le. apply Z.leb_gt in H. lia.
  - intros r Hr. apply firstn_incl in Hr. now apply order_by_In in Hr.
Qed.

(** ** The change log under a ticking clock *)

Lemma step_transactions s o :
  transactions (step s o) = transactions s \/
  exists t, transactions (step s o) = (transactions s ++ [t])%list /\
            Txn.created_at t = op_time o.
Proof.
  by_cases_of_op s o; cbn [op_time]; try (now left);
    right; eexists; (split; [reflexivity|]); reflexivity.
Qed.

Lemma ascending_snoc (l : list Z) (x : Z) :
  StronglySorted Z.lt l -> Forall (fun y => y < x) l ->
  StronglySorted Z.lt (l ++ [x]).
Proof.
  induction 1 as [|a l Hs IH Ha]; intros Hx; cbn.
  - repeat constructor.
  - inversion Hx; subst. constructor; [now apply IH|].
    apply Forall_app. split; [exact Ha|]. now repeat constructor.
Qed.

Lemma fold_step_times_ascend (ops : list Op) (s : Store) :
  StronglySorted Z.lt (map op_time ops) ->
  StronglySorted Z.lt (map Txn.created_at (transactions s)) ->
  (forall t o, In t (transactions s) -> In o ops ->
               Txn.created_at t < op_time o) ->
  StronglySorted Z.lt
    (map Txn.created_at (transactions (fold_left step ops s))).
Proof.
  revert s. induction ops as [|o ops IH]; intros s Ho Hs Hlt; cbn;
    [exact Hs|].
  cbn [map] in Ho. inversion Ho as [|? ? Ho' Hfo]; subst.
  apply IH; [exact Ho'| |].
  - destruct (step_transactions s o) as [->|(t & -> & Et)]; [exact Hs|].
    rewrite map_app. cbn [map]. apply ascending_snoc; [exact Hs|].
    apply Forall_forall. intros y Hy. apply in_map_iff in Hy.
    destruct Hy as (t' & <- & Ht'). rewrite Et.
    apply Hlt; [exact Ht' | now left].
  - intros t' o' Ht' Ho2.
    destruct (step_transactions s o) as [E|(t & E & Et)]; rewrite E in Ht'.
    + apply Hlt; [exact Ht' | now right].
    + apply in_app_or in Ht'. destruct Ht' as [Ht'|[<-|[]]].
      * apply Hlt; [exact Ht' | now right].
      * rewrite Et. rewrite Forall_forall in Hfo. apply Hfo.
        now apply in_map.
Qed.

Lemma join_times (txns : list Txn.t) (rows : list LogRow) (l : list Bean.t) :
  Forall2 (fun t r => exists b, In b l /\ Bean.id b = Txn.bean_id t /\
                                r = log_row t b) txns rows ->
  map log_time rows = map Txn.created_at txns.
Proof.
  induction 1 as [|t r txns rows (b & _ & _ & ->) _ IH]; cbn [map];
    [reflexivity|].
  now rewrite IH.
Qed.

Lemma newest_first_of_ascending (rows : list LogRow) :
  StronglySorted Z.lt (map log_time rows) ->
  order_by (fun r1 r2 => log_time r2 <=? log_time r1) rows = rev rows.
Proof.
  induction rows as [|r rows IH]; cbn [map order_by fold_right rev];
    intros Hs; [reflexivity|].
  inversion Hs as [|? ? Hs' Hr]; subst.
  fold (order_by (fun r1 r2 => log_time r2 <=? log_time r1) rows).
  rewrite (IH Hs'). apply place_last.
  apply Forall_forall. intros y Hy. apply in_rev in Hy.
  rewrite Forall_forall in Hr. apply Z.leb_gt. apply Hr. now apply in_map.
Qed.

(** X13. If every call of a session is made at a later time than the one
    before it, the change log is the JOIN read backwards and cut after
    100 rows: the last 100 transactions, latest first. *)
Theorem log_shows_latest_transactions_first (ops : list Op) :
  StronglySorted Z.lt (map op_time ops) ->
  transaction_log (run ops) = firstn 100 (rev (log_join (run ops))).
Proof.
  intros Ho. unfold transaction_log. f_equal.
  apply newest_first_of_ascending. unfold log_join.
  rewrite (join_times _ _ _
             (join_rows _ _ (ids_unique _ (run_ledger_ok ops))
                (references_exist _ (run_schema_ok ops)))).
  apply fold_step_times_ascend; [exact Ho | constructor |].
  intros t o [].
Qed.

Lemma log_shows_latest_transactions_first_witness :
  StronglySorted Z.lt (map op_time sample_ops) /\
  transaction_log (run sample_ops)
    = firstn 100 (rev (log_join (run sample_ops))) /\
  hd_error (transaction_log (run sample_ops))
    = Some (5, "Y", INBOUND, 0%Q, NoteNewBean).
Proof.
  assert (H : StronglySorted Z.lt (map op_time sample_ops))
    by (repeat constructor).
  split; [exact H|].
  split; [exact (log_shows_latest_transactions_first sample_ops H)|].
  reflexivity.
Defined.

(** ** How calls compose *)

Lemma find_bean_insert_transaction nm i a amt n now s :
  find_bean nm (insert_transaction i a amt n now s) = find_bean nm s.
Proof. reflexivity. Qed.

(** X14. A stocktake is idempotent: repeating [correct] with the same
    actual weight for the same name changes nothing any more, whatever
    the store and whether or not the first one changed anything. *)
Theorem correct_twice_is_correct_once (s : Store) (now1 now2 : Z)
    (nm : string) (w : Q) :
  step (step s (Correct now1 nm w)) (Correct now2 nm w)
  = step s (Correct now1 nm w).
Proof.
  cbn [step]. destruct (find_bean nm s) as [b|] eqn:Hf.
  - destruct (Qeq_dec w (Bean.stock_weight b)) as [Hw|Hw].
    + rewrite (correct_same now1 nm w s b Hf Hw). cbn [fst].
      now rewrite (correct_same now2 nm w s b Hf Hw).
    + rewrite (correct_changed now1 nm w s b Hf Hw). cbn [fst].
      set (b1 := Bean.mk (Bean.id b) (Bean.name b) (Bean.origin b)
                         (Bean.process b) w now1).
      assert (Hf1 : find_bean nm
                      (insert_transaction (Bean.id b) STOCKTAKE
                         (w - Bean.stock_weight b)%Q
                         (NoteStocktake (Bean.stock_weight b) w) now1
                         (update_stock w now1 (Bean.id b) s)) = Some b1)
        by (rewrite find_bean_insert_transaction;
            apply (find_bean_update_stock nm s b); exact Hf).
      now rewrite (correct_same now2 nm w _ b1 Hf1 (Qeq_refl w)).
  - rewrite (correct_missing now1 nm w s Hf). cbn [fst].
    now rewrite (correct_missing now2 nm w s Hf).
Qed.

(** X15. For a bean [b] whose stock on record is not negative and an
    actual weight different from it, the stocktake leaves the bean with
    [stock_weight = actual_weight], appends exactly one STOCKTAKE
    transaction whose [amount_change] is [actual_weight - stock_weight b]
    and whose note carries the old and the new value, and returns that
    difference.  In particular from a stock of 7 a stocktake to 5
    leaves stock 5 and logs an amount equal to -2. *)
Theorem stocktake_records_difference now nm actual s b :
  find_bean nm s = Some b ->
  (0 <= Bean.stock_weight b)%Q ->
  ~ (actual == Bean.stock_weight b)%Q ->
  exists (s' : Store) (b' : Bean.t) (t : Txn.t),
    call (stocktake now nm actual) s
      = (s', Done (actual - Bean.stock_weight b)%Q) /\
    find_bean nm s' = Some b' /\
    Bean.id b' = Bean.id b /\
    Bean.stock_weight b' = actual /\
    transactions s' = (transactions s ++ [t])%list /\
    Txn.bean_id t = Bean.id b /\ Txn.action_type t = STOCKTAKE /\
    Txn.amount_change t = (actual - Bean.stock_weight b)%Q /\
    Txn.note t = NoteStocktake (Bean.stock_weight b) actual /\
    ((Bean.stock_weight b == 7)%Q -> actual = 5%Q ->
     Bean.stock_weight b' = 5%Q /\ (Txn.amount_change t == -2)%Q).
Proof.
  intros Hf Hge Hw. unfold call.
  rewrite (stocktake_open now nm actual (clean s) b Hf Hge).
  fold (call (correct now nm actual) s).
  rewrite (correct_changed now nm actual s b Hf Hw).
  do 3 eexists. split; [reflexivity|].
  split; [cbn [find_bean insert_transaction beans];
          apply (find_bean_update_stock nm s b); exact Hf|].
  cbn [Bean.id Bean.stock_weight transactions insert_transaction
       update_stock Txn.bean_id Txn.action_type Txn.amount_change Txn.note].
  do 7 (split; [reflexivity|]).
  intros H7 H5. split; [exact H5 | rewrite H5; cbn [Txn.amount_change]; lra].
Qed.

Lemma stocktake_records_difference_witness :
  exists (s' : Store) (b' : Bean.t) (t : Txn.t),
    call (stocktake 2 "X" 5%Q) (run [Receive 1 "X" "" "" 7%Q])
      = (s', Done (5 - 7)%Q) /\
    find_bean "X" s' = Some b' /\
    Bean.stock_weight b' = 5%Q /\
    transactions s'
      = (transactions (run [Receive 1 "X" "" "" 7%Q]) ++ [t])%list /\
    Txn.action_type t = STOCKTAKE /\ (Txn.amount_change t == -2)%Q.
Proof.
  assert (H1 : find_bean "X" (run [Receive 1 "X" "" "" 7%Q])
               = Some (Bean.mk 1 "X" "" "" 7%Q 1)) by reflexivity.
  assert (H0 : (0 <= Bean.stock_weight (Bean.mk 1 "X" "" "" 7%Q 1))%Q)
    by (cbn; discriminate).
  assert (H2 : ~ (5 == Bean.stock_weight (Bean.mk 1 "X" "" "" 7%Q 1))%Q)
    by (cbn; discriminate).
  destruct (stocktake_records_difference 2 "X" 5%Q _ _ H1 H0 H2)
    as (s' & b' & t & E & Hf & _ & _ & Ht & _ & Ha & _ & _ & H7).
  destruct (H7 (Qeq_refl _) eq_refl) as [Hs Hd].
  exists s', b', t. repeat split; assumption.
Defined.

Lemma step_counts_receipts s o :
  List.length (filter is_inbound (transactions (step s o)))
  = (List.length (filter is_inbound (transactions s))
     + (if named_receipt o then 1 else 0))%nat.
Proof.
  by_cases_of_op s o; cbn [named_receipt];
    rewrite ?String.eqb_refl;
    try match goal with
        | H : ?n <> "" |- _ => apply String.eqb_neq in H; rewrite H
        end;
    cbn [negb transactions insert_transaction update_stock
         update_stock_meta insert_bean];
    rewrite ?filter_app, ?length_app; cbn; lia.
Qed.

Lemma fold_step_counts_receipts ops s :
  List.length (filter is_inbound (transactions (fold_left step ops s)))
  = (List.length (filter is_inbound (transactions s))
     + List.length (filter named_receipt ops))%nat.
Proof.
  revert s. induction ops as [|o ops IH]; intros s; cbn [fold_left filter].
  - cbn. lia.
  - rewrite IH, step_counts_receipts.
    destruct (named_receipt o); cbn [List.length]; lia.
Qed.

(** X16. Over a whole session every receipt under a non-blank name is
    logged once, and nothing else is logged as INBOUND: the number of
    INBOUND transactions equals the number of such receipts, weight 0
    and repeated names included. *)
Theorem every_receipt_is_logged_once (ops : list Op) :
  List.length (filter is_inbound (transactions (run ops)))
  = List.length (filter named_receipt ops).
Proof.
  unfold run. rewrite fold_step_counts_receipts. reflexivity.
Qed.
